(** * TRF1 RPV lookup service: session lifecycle and keyword scan

    A shallow embedding of [trf1Service.js] (the [TRF1Service] singleton that
    [server.js] requires) and of the routes of [server.js]: the two
    [/api/consultar] handlers, [/api/status], [/api/inicializar],
    [/api/fechar] and the SIGINT handler. The repository also carries a
    variant of the class for serverless deployment, with more page
    configuration in [initialize] and a tolerated wait for a selector in
    [consultarProcesso]; it is embedded in [Vercel], over its own calls, and
    compared with the class [server.js] loads.

    - JavaScript strings are sequences of UTF-16 code units.
    - An [async] method is a program of the resumption monad [Prog]: it reads
      and writes the fields of the shared [TRF1Service] object, writes to the
      console, and suspends at every [await].
    - A program is executed either alone, from call to completion ([run]), or
      as one task among others on the event loop ([step], [exec]), where any
      suspended task may be the next one to be resumed. *)

From Stdlib Require Import NArith ZArith Lia.
From stdpp Require Import base option list strings gmap.

Local Open Scope N_scope.

(** ** JavaScript strings *)

Module JsString.

(** A string value: its UTF-16 code units. *)
Abbreviation jsstring := (list N).

Definition byte_values (s : string) : list N :=
  Ascii.N_of_ascii <$> String.list_ascii_of_string s.

(** Code points of a UTF-8 byte sequence; [need] continuation bytes are
    still expected for the code point accumulated in [acc]. *)
Fixpoint utf8_points (need : nat) (acc : N) (bs : list N) : list N :=
  match bs with
  | [] => []
  | b :: rest =>
      match need with
      | S n =>
          let acc' := acc * 64 + b mod 64 in
          match n with
          | O => acc' :: utf8_points O 0 rest
          | S _ => utf8_points n acc' rest
          end
      | O =>
          if b <? 128 then b :: utf8_points O 0 rest
          else if b <? 224 then utf8_points 1 (b mod 32) rest
          else if b <? 240 then utf8_points 2 (b mod 16) rest
          else utf8_points 3 (b mod 8) rest
      end
  end.

Definition utf16_units (cp : N) : list N :=
  if cp <? 65536 then [cp]
  else [55296 + (cp - 65536) / 1024; 56320 + (cp - 65536) mod 1024].

(** The string value denoted by a literal of the (UTF-8) source text. *)
Definition js (s : string) : jsstring :=
  utf8_points O 0 (byte_values s) ≫= utf16_units.

(** [s.startsWith(pat)] and [s.includes(pat)] *)
Fixpoint startsWith (s pat : jsstring) {struct pat} : bool :=
  match pat, s with
  | [], _ => true
  | _ :: _, [] => false
  | p :: pat', c :: s' => (c =? p) && startsWith s' pat'
  end.

Fixpoint includes (s pat : jsstring) : bool :=
  startsWith s pat ||
  match s with
  | [] => false
  | _ :: s' => includes s' pat
  end.

(** [pat] occurs in [s] as a run of consecutive code units. *)
Definition Substring (pat s : jsstring) : Prop :=
  exists pre post, s = pre ++ pat ++ post.

(** What the engine provides: [String.prototype.toLowerCase]. The
    development holds for any such function. *)
Class Runtime := { toLowerCase : jsstring -> jsstring }.

(** The case mapping of the Basic Latin and Latin-1 Supplement blocks, code
    unit by code unit: A-Z, and U+00C0..U+00DE but for the multiplication
    sign U+00D7. Other code units are kept. *)
Definition lower_unit (c : N) : N :=
  if (65 <=? c) && (c <=? 90) then c + 32
  else if (192 <=? c) && (c <=? 222) && negb (c =? 215) then c + 32
  else c.

Definition latin1_toLowerCase (s : jsstring) : jsstring := lower_unit <$> s.

Definition latin1_runtime : Runtime := {| toLowerCase := latin1_toLowerCase |}.

Definition decimal_digit (n : N) : N := 48 + n mod 10.

Fixpoint decimal_digits (fuel : nat) (n : N) (acc : jsstring) : jsstring :=
  match fuel with
  | O => acc
  | S fuel' =>
      if n <? 10 then decimal_digit n :: acc
      else decimal_digits fuel' (n / 10) (decimal_digit n :: acc)
  end.

(** Decimal rendering of an integer, as [Number.prototype.toString] gives
    for the integers of magnitude below 2^53; above, a number has not all
    the digits of its value, and from 10^21 it is written with an
    exponent. *)
Definition decimal (z : Z) : jsstring :=
  let n := Z.abs_N z in
  let ds := decimal_digits (S (N.to_nat (N.log2 n))) n [] in
  if (z <? 0)%Z then 45 :: ds else ds.

End JsString.

Import JsString.

(** ** The service object, the browser it drives, and asynchronous programs *)

Module Async.

(** Handles of a browser process and of one of its tabs. *)
Inductive Browser := BrowserHandle (id : nat).
Inductive Page := PageHandle (id : nat).

(** A thrown [Error] object. *)
Record JsError := { name : jsstring; message : jsstring }.

Definition Error (msg : jsstring) : JsError :=
  {| name := js "Error"; message := msg |}.
Definition TypeError (msg : jsstring) : JsError :=
  {| name := js "TypeError"; message := msg |}.

Record LaunchOptions := { headless : bool; args : list jsstring }.
Record GotoOptions := { waitUntil : jsstring; timeout : N }.

(** The promise-returning calls made on Puppeteer. *)
Inductive Call :=
| Launch (opts : LaunchOptions)
| NewPage (b : Browser)
| SetUserAgent (p : Page) (ua : jsstring)
| Goto (p : Page) (url : jsstring) (opts : GotoOptions)
| Content (p : Page)
| CloseBrowser (b : Browser).

(** The type of the value a call's promise is fulfilled with. *)
Definition reply (c : Call) : Type :=
  match c with
  | Launch _ => Browser
  | NewPage _ => Page
  | Content _ => jsstring
  | SetUserAgent _ _ | Goto _ _ _ | CloseBrowser _ => unit
  end.

Inductive Settled (T : Type) :=
| Fulfilled (v : T)
| Rejected (e : JsError).
Arguments Fulfilled {T} v.
Arguments Rejected {T} e.

(** The fields of the [TRF1Service] instance; [None] is [null]. *)
Record Session := {
  browser : option Browser;
  page : option Page;
  isInitializing : bool
}.

Definition set_browser (b : option Browser) (s : Session) : Session :=
  {| browser := b; page := page s; isInitializing := isInitializing s |}.
Definition set_page (p : option Page) (s : Session) : Session :=
  {| browser := browser s; page := p; isInitializing := isInitializing s |}.
Definition set_isInitializing (f : bool) (s : Session) : Session :=
  {| browser := browser s; page := page s; isInitializing := f |}.

(** A handle is truthy unless it is [null]. *)
Definition non_null {A} (o : option A) : bool :=
  match o with Some _ => true | None => false end.

Inductive ConsoleLine :=
| console_log (text : jsstring)
| console_error (text : jsstring) (e : JsError).

(** An asynchronous computation that ends by returning an [A] or by
    throwing. [Await] suspends it on the promise of a Puppeteer call,
    [Yield] on a promise of this program's own. *)
Inductive Prog (A : Type) : Type :=
| Ret (a : A)
| Throw (e : JsError)
| Get (k : Session -> Prog A)
| Put (s : Session) (k : Prog A)
| Console (l : ConsoleLine) (k : Prog A)
| Yield (k : Prog A)
| Await (c : Call) (k : Settled (reply c) -> Prog A).
Arguments Ret {A} a.
Arguments Throw {A} e.
Arguments Get {A} k.
Arguments Put {A} s k.
Arguments Console {A} l k.
Arguments Yield {A} k.
Arguments Await {A} c k.

Fixpoint bind {A B} (p : Prog A) (f : A -> Prog B) : Prog B :=
  match p with
  | Ret a => f a
  | Throw e => Throw e
  | Get k => Get (fun s => bind (k s) f)
  | Put s k => Put s (bind k f)
  | Console l k => Console l (bind k f)
  | Yield k => Yield (bind k f)
  | Await c k => Await c (fun r => bind (k r) f)
  end.

#[global] Instance prog_ret : MRet Prog := @Ret.
#[global] Instance prog_bind : MBind Prog := fun A B f p => bind p f.

(** [try { p } catch (error) { h error }] *)
Fixpoint try_catch {A} (p : Prog A) (h : JsError -> Prog A) : Prog A :=
  match p with
  | Ret a => Ret a
  | Throw e => h e
  | Get k => Get (fun s => try_catch (k s) h)
  | Put s k => Put s (try_catch k h)
  | Console l k => Console l (try_catch k h)
  | Yield k => Yield (try_catch k h)
  | Await c k => Await c (fun r => try_catch (k r) h)
  end.

(** [try { p } finally { f }]: [f] runs on both exits of [p], which keeps
    its completion when [f] completes normally. *)
Fixpoint try_finally {A} (p : Prog A) (f : Prog unit) : Prog A :=
  match p with
  | Ret a => bind f (fun _ => Ret a)
  | Throw e => bind f (fun _ => Throw e)
  | Get k => Get (fun s => try_finally (k s) f)
  | Put s k => Put s (try_finally k f)
  | Console l k => Console l (try_finally k f)
  | Yield k => Yield (try_finally k f)
  | Await c k => Await c (fun r => try_finally (k r) f)
  end.

Definition get : Prog Session := Get Ret.
Definition modify (f : Session -> Session) : Prog unit :=
  Get (fun s => Put (f s) (Ret tt)).
Definition console (l : ConsoleLine) : Prog unit := Console l (Ret tt).
Definition throw {A} (e : JsError) : Prog A := Throw e.

(** [await c] for a Puppeteer call [c]: a rejection is thrown at the
    [await]. *)
Definition await (c : Call) : Prog (reply c) :=
  Await c (fun r => match r with Fulfilled v => Ret v | Rejected e => Throw e end).

(** [await p] for an [async] method [p] of this program: the caller sees
    [p]'s completion only after one more turn of the event loop. *)
Definition await_async {A} (p : Prog A) : Prog A :=
  try_finally p (Yield (Ret tt)).

(** [o.m(...)]: reading property [m] of [null] throws. *)
Definition receiver {H} (o : option H) (m : string) : Prog H :=
  match o with
  | Some h => Ret h
  | None => Throw (TypeError (js "Cannot read properties of null (reading '" ++ js m ++ js "')"))
  end.

End Async.

Import Async.

(** ** trf1Service.js *)

Module TRF1Service.

(** [new TRF1Service()] *)
Definition constructor : Session :=
  {| browser := None; page := None; isInitializing := false |}.

Definition launchOptions : LaunchOptions :=
  {| headless := true;
     args := [js "--no-sandbox"; js "--disable-setuid-sandbox";
              js "--disable-dev-shm-usage"; js "--disable-gpu"] |}.

Definition userAgent : jsstring :=
  js "Mozilla/5.0 (Windows NT 10.0; Win64; x64) AppleWebKit/537.36 (KHTML, like Gecko) Chrome/120.0.0.0 Safari/537.36".

Definition initialize : Prog unit :=
  s ← get;
  if non_null (browser s) || isInitializing s then Ret tt
  else
    modify (set_isInitializing true);;
    try_finally
      (try_catch
         (console (console_log (js "[TRF1Service] Inicializando navegador Puppeteer..."));;
          b ← await (Launch launchOptions);
          modify (set_browser (Some b));;
          s ← get;
          b ← receiver (browser s) "newPage";
          p ← await (NewPage b);
          modify (set_page (Some p));;
          s ← get;
          p ← receiver (page s) "setUserAgent";
          await (SetUserAgent p userAgent);;
          console (console_log (js "[TRF1Service] Navegador inicializado com sucesso!")))
         (fun error =>
            console (console_error (js "[TRF1Service] Erro ao inicializar navegador:") error);;
            modify (set_browser None);;
            modify (set_page None);;
            throw error))
      (modify (set_isInitializing false)).

(** Argument values: what a JSON body or a query string can put in a
    field. The program does two things with a field: it tests it ([!v])
    and it converts it to a string (in the template literal of the
    address). [undefined], [null], the booleans and the strings are given
    as they are. A number is given by its conversion to string, the text
    of [Number.prototype.toString]: "10025" for 10025, "0.5",
    "9007199254740992" for 2^53 + 1 as [JSON.parse] reads it, "1e+21" for
    10^21, "0" for both zeros. An array or an object is given by its
    conversion to string too: "a,b" for [["a", "b"]], the empty string for
    [[]], "[object Object]" for [{a: 1}]. An object whose conversion
    throws (one with a property [toString] of its own) is no value of this
    type. *)
Inductive JsValue :=
| VUndefined
| VNull
| VBool (b : bool)
| VNum (text : jsstring)
| VStr (s : jsstring)
| VObject (text : jsstring).

(** Conversion to boolean, as [!v] and [if (v)] do: the numbers that are
    falsy are the two zeros and [NaN]; arrays and objects are truthy. *)
Definition truthy (v : JsValue) : bool :=
  match v with
  | VUndefined | VNull => false
  | VBool b => b
  | VNum text => negb (bool_decide (text = js "0" \/ text = js "NaN"))
  | VStr s => negb (bool_decide (s = []))
  | VObject _ => true
  end.

(** Conversion to string, as a template literal does. *)
Definition toStr (v : JsValue) : jsstring :=
  match v with
  | VUndefined => js "undefined"
  | VNull => js "null"
  | VBool true => js "true"
  | VBool false => js "false"
  | VNum text => text
  | VStr s => s
  | VObject text => text
  end.

Record Result := {
  sucesso : bool;
  mensagem : jsstring;
  temRPV : option bool;
  detalhes : option jsstring
}.

Definition palavrasChaveRPV : list jsstring :=
  [js "Requisição de Pequeno Valor"; js "RPV"; js "migração"; js "migrado";
   js "precatório"; js "requisitorio"].

Definition gotoOptions : GotoOptions :=
  {| waitUntil := js "domcontentloaded"; timeout := 60000 |}.

Definition url (secao proc uf : JsValue) : jsstring :=
  js "https://processual.trf1.jus.br/consultaProcessual/processoExecucao/listar.php?secao="
    ++ toStr secao ++ js "&proc=" ++ toStr proc ++ js "&uf=" ++ toStr uf.

Section WithRuntime.
Context `{Runtime}.

(** The [for ... of] loop over the keywords, from [temRPV = false] and
    [detalhesRPV = ""]; its value is the pair of the two variables when
    the loop is left. *)
Fixpoint scan (html : jsstring) (palavras : list jsstring) : Prog (bool * jsstring) :=
  match palavras with
  | [] => Ret (false, [])
  | palavra :: rest =>
      console (console_log html);;
      if includes (toLowerCase html) (toLowerCase palavra)
      then Ret (true, palavra)
      else scan html rest
  end.

Definition consultarProcesso (secao proc uf : JsValue) : Prog Result :=
  try_catch
    (s ← get;
     (if negb (non_null (browser s)) || negb (non_null (page s))
      then await_async initialize else Ret tt);;
     s ← get;
     (if negb (non_null (page s))
      then throw (Error (js "Falha ao inicializar a página")) else Ret tt);;
     s ← get;
     p ← receiver (page s) "goto";
     await (Goto p (url secao proc uf) gotoOptions);;
     s ← get;
     p ← receiver (page s) "content";
     html ← await (Content p);
     found ← scan html palavrasChaveRPV;
     let tem : bool := found.1 in
     let detalhesRPV : jsstring := found.2 in
     Ret {| sucesso := true;
            mensagem := if tem then js "RPV encontrada: " ++ detalhesRPV
                        else js "Página carregada, mas RPV não foi encontrada";
            temRPV := Some tem;
            detalhes := Some detalhesRPV |})
    (fun error =>
       console (console_error (js "[TRF1Service] Erro durante a consulta:") error);;
       Ret {| sucesso := false;
              mensagem := js "Erro durante a consulta: " ++ message error;
              temRPV := None;
              detalhes := None |}).

End WithRuntime.

Definition close : Prog unit :=
  s ← get;
  match browser s with
  | Some b =>
      await (CloseBrowser b);;
      modify (set_browser None);;
      modify (set_page None);;
      console (console_log (js "[TRF1Service] Navegador fechado"))
  | None => Ret tt
  end.

Definition isReady (s : Session) : bool :=
  non_null (browser s) && non_null (page s).

End TRF1Service.

Import TRF1Service.

(** ** server.js: the two routes that query a process *)

Module Server.

(** What the handlers read of a request: the object [express.json()]
    leaves in [req.body] and the parsed query string [req.query]. *)
Record Request := {
  body : gmap string JsValue;
  query : gmap string JsValue
}.

(** [o.k], [undefined] when [o] has no property [k]. *)
Definition prop (o : gmap string JsValue) (k : string) : JsValue :=
  default VUndefined (o !! k).

(** What [res.status(n).json(obj)] sends; [res.json(obj)] sends it with
    status 200. *)
Record Response := { status : nat; payload : Result }.

Section WithRuntime.
Context `{Runtime}.

(** [app.post("/api/consultar", ...)] *)
Definition post_consultar (req : Request) : Prog Response :=
  try_catch
    (let secao := prop (body req) "secao" in
     let proc := prop (body req) "proc" in
     let uf := prop (body req) "uf" in
     if negb (truthy secao) || negb (truthy proc) || negb (truthy uf)
     then Ret {| status := 400;
                 payload := {| sucesso := false;
                               mensagem := js "Parâmetros obrigatórios: secao, proc, uf";
                               temRPV := None; detalhes := None |} |}
     else
       s ← get;
       (if negb (isReady s) then await_async initialize else Ret tt);;
       resultado ← await_async (consultarProcesso secao proc uf);
       Ret {| status := 200; payload := resultado |})
    (fun error =>
       Ret {| status := 500;
              payload := {| sucesso := false;
                            mensagem := js "Erro durante a consulta: " ++ message error;
                            temRPV := None; detalhes := None |} |}).

(** [app.get("/api/consultar", ...)] *)
Definition get_consultar (req : Request) : Prog Response :=
  try_catch
    (let secao := prop (query req) "secao" in
     let proc := prop (query req) "proc" in
     let uf := prop (query req) "uf" in
     if negb (truthy secao) || negb (truthy proc) || negb (truthy uf)
     then Ret {| status := 400;
                 payload := {| sucesso := false;
                               mensagem := js "Parâmetros obrigatórios: secao, proc, uf";
                               temRPV := None; detalhes := None |} |}
     else
       s ← get;
       (if negb (isReady s) then await_async initialize else Ret tt);;
       resultado ← await_async (consultarProcesso secao proc uf);
       Ret {| status := 200; payload := resultado |})
    (fun error =>
       Ret {| status := 500;
              payload := {| sucesso := false;
                            mensagem := js "Erro durante a consulta: " ++ message error;
                            temRPV := None; detalhes := None |} |}).

End WithRuntime.

End Server.

Import Server.

(** ** Execution *)

Module EventLoop.

Inductive Event :=
| EvCall (c : Call)
| EvSettle (c : Call) (r : Settled (reply c))
| EvConsole (l : ConsoleLine).

(** The world outside the program: how the promise of call [c] is
    settled, given the number of events that came before. *)
Definition World := nat -> forall c : Call, Settled (reply c).

Inductive Completion (A : Type) :=
| Returned (a : A)
| Thrown (e : JsError).
Arguments Returned {A} a.
Arguments Thrown {A} e.

(** *** One caller: a program run from its call to its completion *)

Fixpoint run {A} (w : World) (p : Prog A) (s : Session) (tr : list Event)
  : Completion A * Session * list Event :=
  match p with
  | Ret a => (Returned a, s, tr)
  | Throw e => (Thrown e, s, tr)
  | Get k => run w (k s) s tr
  | Put s' k => run w k s' tr
  | Console l k => run w k s (tr ++ [EvConsole l])
  | Yield k => run w k s tr
  | Await c k =>
      let tr1 := tr ++ [EvCall c] in
      let r := w (length tr1) c in
      run w (k r) s (tr1 ++ [EvSettle c r])
  end.

(** The operations callers start. *)
Inductive Op :=
| OpInitialize
| OpConsultar (secao proc uf : JsValue)
| OpClose
| OpIsReady
| OpPost (req : Request)
| OpGet (req : Request).

Inductive Val :=
| ValUnit
| ValBool (b : bool)
| ValResult (r : Result)
| ValResponse (r : Response).

Section WithRuntime.
Context `{Runtime}.

Definition op_prog (op : Op) : Prog Val :=
  match op with
  | OpInitialize => initialize;; Ret ValUnit
  | OpConsultar secao proc uf => r ← consultarProcesso secao proc uf; Ret (ValResult r)
  | OpClose => close;; Ret ValUnit
  | OpIsReady => s ← get; Ret (ValBool (isReady s))
  | OpPost req => r ← post_consultar req; Ret (ValResponse r)
  | OpGet req => r ← get_consultar req; Ret (ValResponse r)
  end.

(** Operations called one after the other, each awaited before the
    next is started, whether it returned or threw. *)
Fixpoint run_ops (w : World) (ops : list Op) (s : Session) (tr : list Event)
  : Session * list Event :=
  match ops with
  | [] => (s, tr)
  | op :: rest =>
      let '(_, s', tr') := run w (op_prog op) s tr in
      run_ops w rest s' tr'
  end.

(** *** Many callers: tasks interleaved at their suspension points *)

Inductive Task :=
| TAwait (c : Call) (k : Settled (reply c) -> Prog Val)
| TYield (k : Prog Val)
| TDone (r : Completion Val).

(** A program runs, without interruption, to its next suspension point
    or to its completion. *)
Fixpoint advance (p : Prog Val) (s : Session) (tr : list Event)
  : Task * Session * list Event :=
  match p with
  | Ret a => (TDone (Returned a), s, tr)
  | Throw e => (TDone (Thrown e), s, tr)
  | Get k => advance (k s) s tr
  | Put s' k => advance k s' tr
  | Console l k => advance k s (tr ++ [EvConsole l])
  | Yield k => (TYield k, s, tr)
  | Await c k => (TAwait c k, s, tr ++ [EvCall c])
  end.

Record Config := {
  session : Session;
  pool : list (Op * Task);
  trace : list Event
}.

Definition boot : Config :=
  {| session := constructor; pool := []; trace := [] |}.

Inductive Action :=
| Invoke (op : Op)
| Resume (i : nat).

Definition resume (w : World) (t : Task) (s : Session) (tr : list Event)
  : option (Task * Session * list Event) :=
  match t with
  | TAwait c k =>
      let r := w (length tr) c in
      Some (advance (k r) s (tr ++ [EvSettle c r]))
  | TYield k => Some (advance k s tr)
  | TDone _ => None
  end.

Definition step (w : World) (cfg : Config) (a : Action) : option Config :=
  match a with
  | Invoke op =>
      let '(t, s, tr) := advance (op_prog op) (session cfg) (trace cfg) in
      Some {| session := s; pool := pool cfg ++ [(op, t)]; trace := tr |}
  | Resume i =>
      '(op, t) ← pool cfg !! i;
      '(t', s, tr) ← resume w t (session cfg) (trace cfg);
      Some {| session := s; pool := <[i := (op, t')]> (pool cfg); trace := tr |}
  end.

Fixpoint exec (w : World) (cfg : Config) (acts : list Action) : option Config :=
  match acts with
  | [] => Some cfg
  | a :: rest => cfg' ← step w cfg a; exec w cfg' rest
  end.

End WithRuntime.

End EventLoop.

Import EventLoop.

(** ** Vocabulary of the properties *)

Module Props.

Section WithRuntime.
Context `{Runtime}.

(** [kw] is a case-insensitive substring of [html]. *)
Definition Matches (html kw : jsstring) : Prop :=
  Substring (toLowerCase kw) (toLowerCase html).

(** [kw] is the first keyword of [kws], in list order, that matches. *)
Definition FirstMatch (html : jsstring) (kws : list jsstring) (kw : jsstring) : Prop :=
  exists before after,
    kws = before ++ kw :: after /\
    Matches html kw /\
    Forall (fun k => ~ Matches html k) before.

(** The two loop variables when [scan] is left, and the number of
    iterations it has begun. *)
Fixpoint scan_value (html : jsstring) (palavras : list jsstring) : bool * jsstring :=
  match palavras with
  | [] => (false, [])
  | palavra :: rest =>
      if includes (toLowerCase html) (toLowerCase palavra)
      then (true, palavra)
      else scan_value html rest
  end.

Fixpoint scan_turns (html : jsstring) (palavras : list jsstring) : nat :=
  match palavras with
  | [] => O
  | palavra :: rest =>
      S (if includes (toLowerCase html) (toLowerCase palavra)
         then O
         else scan_turns html rest)
  end.

End WithRuntime.

(** What the claim on the keyword scan says of a result, for the page
    text [html]. *)
Definition Scanned `{Runtime} (html : jsstring) (r : Result) : Prop :=
  sucesso r = true /\
  (temRPV r = Some true \/ temRPV r = Some false) /\
  (temRPV r = Some true <-> Exists (Matches html) palavrasChaveRPV) /\
  ((exists kw, FirstMatch html palavrasChaveRPV kw /\ detalhes r = Some kw) \/
   (Forall (fun k => ~ Matches html k) palavrasChaveRPV /\ detalhes r = Some [])).

(** The error of [this.page.content()] when [this.page] is [null]. *)
Definition null_content : JsError :=
  TypeError (js "Cannot read properties of null (reading '" ++ js "content" ++ js "')").

(** A program that first writes the lines [ls] to the console. *)
Definition consoles {A} (ls : list ConsoleLine) (k : Prog A) : Prog A :=
  foldr Console k ls.

(** The result [consultarProcesso] builds in its [catch] block. *)
Definition failure (e : JsError) : Result :=
  {| sucesso := false;
     mensagem := js "Erro durante a consulta: " ++ message e;
     temRPV := None;
     detalhes := None |}.

Definition consulta_error_line (e : JsError) : Event :=
  EvConsole (console_error (js "[TRF1Service] Erro durante a consulta:") e).

Definition falha_pagina : JsError := Error (js "Falha ao inicializar a página").

(** How the session may change while a task is suspended: not at all
    when it runs alone, in any way when other tasks run meanwhile. *)
Definition undisturbed : Session -> Session -> Prop := eq.
Definition disturbed : Session -> Session -> Prop := fun _ _ => True.

(** Every execution of [p] from session [s] ends in [Q], whatever the
    calls reply, the session changing along [R] at each suspension.
    [tr] collects the events of [p] itself. *)
Fixpoint ensures {A} (R : Session -> Session -> Prop)
  (p : Prog A) (s : Session) (tr : list Event)
  (Q : Completion A -> Session -> list Event -> Prop) : Prop :=
  match p with
  | Ret a => Q (Returned a) s tr
  | Throw e => Q (Thrown e) s tr
  | Get k => ensures R (k s) s tr Q
  | Put s' k => ensures R k s' tr Q
  | Console l k => ensures R k s (tr ++ [EvConsole l]) Q
  | Yield k => forall s', R s s' -> ensures R k s' tr Q
  | Await c k =>
      forall r s', R s s' ->
        ensures R (k r) s' ((tr ++ [EvCall c]) ++ [EvSettle c r]) Q
  end.

(** A program none of whose executions ends by throwing. *)
Fixpoint NoThrow {A} (p : Prog A) : Prop :=
  match p with
  | Ret _ => True
  | Throw _ => False
  | Get k => forall s, NoThrow (k s)
  | Put _ k | Console _ k | Yield k => NoThrow k
  | Await c k => forall r, NoThrow (k r)
  end.

Definition NoThrowTask `{Runtime} (t : Task) : Prop :=
  match t with
  | TAwait c k => forall r, NoThrow (k r)
  | TYield k => NoThrow k
  | TDone (Returned _) => True
  | TDone (Thrown _) => False
  end.

(** The text a fulfilled [page.content()] delivered, and the error a
    rejected call delivered. *)
Definition content_of (e : Event) : option jsstring :=
  match e with
  | EvSettle (Content _) (Fulfilled html) => Some html
  | _ => None
  end.

Definition rejection_of (e : Event) : option JsError :=
  match e with
  | EvSettle _ (Rejected err) => Some err
  | _ => None
  end.

(** What a completed [consultarProcesso] is to its events [tr]: a
    result, never an exception; the scan of the text it read, if it read
    one; the failure of the call that was rejected, if one was. A failure
    carries the message of a rejected call or of the missing page, or,
    when other tasks ran meanwhile ([alone = false]), of the page found
    [null] at [content()]. *)
Definition Answered `{Runtime} (alone : bool) (c : Completion Result) (tr : list Event) : Prop :=
  exists r, c = Returned r /\
    (forall html, In (Some html) (content_of <$> tr) -> Scanned html r) /\
    (forall e, In (Some e) (rejection_of <$> tr) -> r = failure e) /\
    (sucesso r = false -> exists e, r = failure e /\
        (In (Some e) (rejection_of <$> tr) \/ e = falha_pagina \/
         (alone = false /\ e = null_content))).

(** No [consultarProcesso] task of the pool can end by throwing. *)
Definition consultas_safe `{Runtime} (cfg : Config) : Prop :=
  forall i secao proc uf t,
    pool cfg !! i = Some (OpConsultar secao proc uf, t) -> NoThrowTask t.


(** The sessions in which no method is under way: closed, or open with a
    browser and its page. *)
Definition idle (s : Session) : Prop :=
  isInitializing s = false /\ (browser s = None <-> page s = None).

(** Browser life cycle read off a trace: the last step of [initialize]
    (the user agent set) makes the session ready, the shutdown of the
    browser makes it not ready. *)
Definition lifecycle_step (ready : bool) (e : Event) : bool :=
  match e with
  | EvSettle (SetUserAgent _ _) (Fulfilled _) => true
  | EvSettle (CloseBrowser _) (Fulfilled _) => false
  | _ => ready
  end.

Definition lifecycle (tr : list Event) : bool :=
  fold_left lifecycle_step tr false.

(** The session is idle and its readiness is the one its trace tells. *)
Definition Settled_down (s : Session) (tr : list Event) : Prop :=
  idle s /\ isReady s = lifecycle tr.

(** A program that, run alone from a settled session, ends in one. *)
Definition Settles {A} (p : Prog A) : Prop :=
  forall s tr, Settled_down s tr ->
    ensures undisturbed p s tr (fun _ s' tr' => Settled_down s' tr').

(** How an [initialize] that went past its guard ends: the guard is
    cleared; a rejected call is thrown again and leaves both handles
    [null]; nothing else is thrown. *)
Definition Reset (c : Completion unit) (s' : Session) (tr : list Event) : Prop :=
  isInitializing s' = false /\
  (forall e, In (Some e) (rejection_of <$> tr) ->
     c = Thrown e /\ browser s' = None /\ page s' = None) /\
  (forall e, c = Thrown e ->
     In (Some e) (rejection_of <$> tr) /\ browser s' = None /\ page s' = None).

Definition is_launch (e : Event) : bool :=
  match e with EvCall (Launch _) => true | _ => false end.

Definition is_rejection (e : Event) : bool :=
  match e with EvSettle _ (Rejected _) => true | _ => false end.

Definition is_page_call (e : Event) : bool :=
  match e with
  | EvCall (SetUserAgent _ _) | EvCall (Goto _ _ _) | EvCall (Content _) => true
  | _ => false
  end.

Definition launches (tr : list Event) : nat := length (filter is_launch tr).
Definition rejections (tr : list Event) : nat := length (filter is_rejection tr).

Definition is_initialize (a : Action) : bool :=
  match a with
  | Invoke OpInitialize | Resume _ => true
  | Invoke _ => false
  end.

Definition is_shutdown (e : Event) : bool :=
  match e with EvSettle (CloseBrowser _) (Fulfilled _) => true | _ => false end.

Section WithRuntime.
Context `{Runtime}.

Definition is_done (t : Task) : bool :=
  match t with TDone _ => true | _ => false end.

(** A task that is an [initialize] past its guard, suspended on a call
    with [n] more calls to make: resumed while the guard is set (and,
    once the browser is launched, its handle stored), it launches
    nothing; a rejection ends it, with the session reset; a fulfilment
    takes it to its next call or, after the last one, to its end with
    the guard cleared. *)
Fixpoint InFlight (n : nat) (t : Task) : Prop :=
  match t with
  | TAwait c k =>
      forall r s tr,
        isInitializing s = true ->
        ((n < 2)%nat -> non_null (browser s) = true) ->
        let out := advance (k r) s (tr ++ [EvSettle c r]) in
        launches out.2 = launches tr /\
        match r with
        | Rejected _ =>
            is_done out.1.1 = true /\ out.1.2 = constructor /\
            rejections out.2 = S (rejections tr)
        | Fulfilled _ =>
            rejections out.2 = rejections tr /\
            non_null (browser out.1.2) = true /\
            match n with
            | O => is_done out.1.1 = true /\ isInitializing out.1.2 = false
            | S n' => InFlight n' out.1.1 /\ isInitializing out.1.2 = true
            end
        end
  | _ => False
  end.

(** The invariant of the executions that only call [initialize]: at
    most one task is past the guard, and each launch but one has been
    paid for by a rejection. *)
Definition OneLaunch (cfg : Config) : Prop :=
  let s := session cfg in
  let L := launches (trace cfg) in
  let R := rejections (trace cfg) in
  (L <= S R)%nat /\
  ((isInitializing s = false /\
    Forall (fun x => is_done x.2 = true) (pool cfg) /\
    (non_null (browser s) = false -> (L <= R)%nat))
   \/
   (isInitializing s = true /\
    exists i n t,
      pool cfg !! i = Some (OpInitialize, t) /\ InFlight n t /\
      ((n < 2)%nat -> non_null (browser s) = true) /\
      forall j x, j <> i -> pool cfg !! j = Some x -> is_done x.2 = true)).

End WithRuntime.



Section WithRuntime.
Context `{Runtime}.





End WithRuntime.

(** The response to a request that lacks a field. *)
Definition bad_request : Response :=
  {| status := 400;
     payload := {| sucesso := false;
                   mensagem := js "Parâmetros obrigatórios: secao, proc, uf";
                   temRPV := None; detalhes := None |} |}.

(** A field that is missing from the request object, or empty. *)
Definition missing_or_empty (o : gmap string JsValue) (k : string) : Prop :=
  o !! k = None \/ o !! k = Some (VStr []).

(** *** Worlds and inputs of the examples *)

(** Every call succeeds; the page's content is [html]. *)
Definition world_ok (html : jsstring) : World := fun _ c =>
  match c return Settled (reply c) with
  | Launch _ => Fulfilled (BrowserHandle 1)
  | NewPage _ => Fulfilled (PageHandle 1)
  | Content _ => Fulfilled html
  | SetUserAgent _ _ => Fulfilled tt
  | Goto _ _ _ => Fulfilled tt
  | CloseBrowser _ => Fulfilled tt
  end.

Definition timeout_error : JsError :=
  {| name := js "TimeoutError"; message := js "Navigation timeout of 60000 ms exceeded" |}.

(** Navigation times out, every other call succeeds. *)
Definition world_timeout : World := fun _ c =>
  match c return Settled (reply c) with
  | Launch _ => Fulfilled (BrowserHandle 1)
  | NewPage _ => Fulfilled (PageHandle 1)
  | Content _ => Fulfilled []
  | SetUserAgent _ _ => Fulfilled tt
  | Goto _ _ _ => Rejected timeout_error
  | CloseBrowser _ => Fulfilled tt
  end.

Definition launch_error : JsError := Error (js "Failed to launch the browser process!").

(** The browser cannot be launched. *)
Definition world_no_browser : World := fun _ c =>
  match c return Settled (reply c) with
  | Launch _ => Rejected launch_error
  | NewPage _ => Fulfilled (PageHandle 1)
  | Content _ => Fulfilled []
  | SetUserAgent _ _ => Fulfilled tt
  | Goto _ _ _ => Fulfilled tt
  | CloseBrowser _ => Fulfilled tt
  end.

Definition open_session : Session :=
  {| browser := Some (BrowserHandle 1); page := Some (PageHandle 1);
     isInitializing := false |}.

(** The session while another caller's [initialize] awaits the launch. *)
Definition launching_session : Session :=
  {| browser := None; page := None; isInitializing := true |}.

Definition trf1 : JsValue := VStr (js "TRF1").
Definition processo : JsValue := VStr (js "10025962720234013311").
Definition bahia : JsValue := VStr (js "BA").

Definition html_precatorio : jsstring :=
  js "<html><body><p>Expedido PRECATÓRIO em favor do autor</p></body></html>".

Definition html_requisicao : jsstring :=
  js "<td>Requisição de Pequeno Valor - RPV migrado</td>".

Definition html_vazio : jsstring := js "<html><body>Nenhum processo</body></html>".

(** Two callers of [initialize], then the three calls of the first one
    settle. *)
Definition two_initializes : list Action :=
  [Invoke OpInitialize; Invoke OpInitialize; Resume 0; Resume 0; Resume 0].


(** A query arrives while the launch of the browser is awaited. *)
Definition query_during_launch : list Action :=
  [Invoke OpInitialize; Invoke (OpConsultar trf1 processo bahia); Resume 1].

(** [close] is called and completes while [initialize] awaits its page,
    which arrives afterwards. *)
Definition close_during_initialize : list Action :=
  [Invoke OpInitialize; Resume 0; Invoke OpClose; Resume 1; Resume 0].

Definition full_fields : gmap string JsValue :=
  {[ "secao" := trf1; "proc" := processo; "uf" := bahia ]}.

Definition no_uf_fields : gmap string JsValue :=
  {[ "secao" := trf1; "proc" := processo ]}.

End Props.

Import Props.
#[global] Existing Instance latin1_runtime.

(** ** server.js: the other routes and the shutdown signal *)

Module Status.

(** The body GET /api/status sends. *)
Record Body := { pronto : bool; mensagem : jsstring }.

End Status.

Module Routes.

(** [app.get("/api/status", ...)]: [isReady()] is called twice. *)
Definition get_status : Prog Status.Body :=
  s ← get;
  s' ← get;
  Ret {| Status.pronto := isReady s;
         Status.mensagem := if isReady s' then js "Serviço pronto para consultas"
                            else js "Serviço não inicializado" |}.

(** [app.post("/api/inicializar", ...)] *)
Definition post_inicializar : Prog Response :=
  try_catch
    (await_async initialize;;
     Ret {| status := 200;
            payload := {| sucesso := true;
                          mensagem := js "Serviço inicializado com sucesso";
                          temRPV := None; detalhes := None |} |})
    (fun error =>
       Ret {| status := 500;
              payload := {| sucesso := false;
                            mensagem := js "Erro ao inicializar: " ++ message error;
                            temRPV := None; detalhes := None |} |}).

(** [app.post("/api/fechar", ...)] *)
Definition post_fechar : Prog Response :=
  try_catch
    (await_async close;;
     Ret {| status := 200;
            payload := {| sucesso := true;
                          mensagem := js "Serviço fechado com sucesso";
                          temRPV := None; detalhes := None |} |})
    (fun error =>
       Ret {| status := 500;
              payload := {| sucesso := false;
                            mensagem := js "Erro ao fechar: " ++ message error;
                            temRPV := None; detalhes := None |} |}).

(** [process.on("SIGINT", ...)]. The value returned is the code given to
    [process.exit], which is reached only if [close()] did not throw. *)
Definition sigint : Prog Z :=
  console (console_log (10 :: js "[API] Encerrando servidor..."));;
  await_async close;;
  Ret 0%Z.

(** The requests the router knows, but for GET /health, which does not
    touch the service. *)
Inductive Route :=
| GetStatus
| PostInicializar
| PostConsultar (req : Request)
| GetConsultar (req : Request)
| PostFechar.

Inductive Sent :=
| SentResponse (r : Response)
| SentStatus (b : Status.Body).

Section WithRuntime.
Context `{Runtime}.

Definition handler (r : Route) : Prog Sent :=
  match r with
  | GetStatus => b ← get_status; Ret (SentStatus b)
  | PostInicializar => r ← post_inicializar; Ret (SentResponse r)
  | PostConsultar req => r ← post_consultar req; Ret (SentResponse r)
  | GetConsultar req => r ← get_consultar req; Ret (SentResponse r)
  | PostFechar => r ← post_fechar; Ret (SentResponse r)
  end.

(** Requests served one at a time; the completions of the handlers, in
    the order of the requests. *)
Fixpoint serve (w : World) (routes : list Route) (s : Session) (tr : list Event)
  : list (Completion Sent) * Session * list Event :=
  match routes with
  | [] => ([], s, tr)
  | r :: rest =>
      let '(c, s', tr') := run w (handler r) s tr in
      let '(cs, s'', tr'') := serve w rest s' tr' in
      (c :: cs, s'', tr'')
  end.

End WithRuntime.

End Routes.

Import Routes.

(** ** Vocabulary of the further properties *)

Module MoreProps.

(** The calls made, in order. *)
Definition call_of (e : Event) : option Call :=
  match e with EvCall c => Some c | _ => None end.

Definition calls (tr : list Event) : list Call := omap call_of tr.

Definition is_goto (c : Call) : bool :=
  match c with Goto _ _ _ => true | _ => false end.

Definition is_content (c : Call) : bool :=
  match c with Content _ => true | _ => false end.

Definition is_launch_call (c : Call) : bool :=
  match c with Launch _ => true | _ => false end.

Definition is_close_call (c : Call) : bool :=
  match c with CloseBrowser _ => true | _ => false end.

(** The result [consultarProcesso] builds from the page text. *)
Definition found_result `{Runtime} (html : jsstring) : Result :=
  let found := scan_value html palavrasChaveRPV in
  {| sucesso := true;
     mensagem := if found.1 then js "RPV encontrada: " ++ found.2
                 else js "Página carregada, mas RPV não foi encontrada";
     temRPV := Some found.1;
     detalhes := Some found.2 |}.

(** The code unit of "&". *)
Definition ampersand : N := 38.

(** The responses of the routes. *)
Definition server_error (e : JsError) : Response :=
  {| status := 500; payload := failure e |}.

Definition inicializado : Response :=
  {| status := 200;
     payload := {| sucesso := true;
                   mensagem := js "Serviço inicializado com sucesso";
                   temRPV := None; detalhes := None |} |}.

Definition erro_ao_inicializar (e : JsError) : Response :=
  {| status := 500;
     payload := {| sucesso := false;
                   mensagem := js "Erro ao inicializar: " ++ message e;
                   temRPV := None; detalhes := None |} |}.

Definition fechado : Response :=
  {| status := 200;
     payload := {| sucesso := true;
                   mensagem := js "Serviço fechado com sucesso";
                   temRPV := None; detalhes := None |} |}.

Definition erro_ao_fechar (e : JsError) : Response :=
  {| status := 500;
     payload := {| sucesso := false;
                   mensagem := js "Erro ao fechar: " ++ message e;
                   temRPV := None; detalhes := None |} |}.

(** The three fields of a request object are all truthy. *)
Definition fields_given (o : gmap string JsValue) : bool :=
  truthy (prop o "secao") && truthy (prop o "proc") && truthy (prop o "uf").

Definition returned {A} (c : Completion A) : bool :=
  match c with Returned _ => true | Thrown _ => false end.

(** The calls [initialize] makes. *)
Definition opens (c : Call) : bool :=
  match c with
  | Launch _ | NewPage _ | SetUserAgent _ _ => true
  | _ => false
  end.

(** The message GET /api/status sends with the readiness [b]. *)
Definition ready_message (b : bool) : jsstring :=
  if b then js "Serviço pronto para consultas" else js "Serviço não inicializado".

(** The request object a route of /api/consultar reads its fields from. *)
Definition fields_of (r : Route) : option (gmap string JsValue) :=
  match r with
  | PostConsultar req => Some (body req)
  | GetConsultar req => Some (query req)
  | _ => None
  end.

Section WithRuntime.
Context `{Runtime}.

(** What one call of [consultarProcesso] does to the browser: it
    navigates at most once, to the address of its arguments, reads the
    page at most once, launches at most one browser and shuts none down. *)
Definition OneAttempt (secao proc uf : JsValue) (tr : list Event) : Prop :=
  (length (filter is_goto (calls tr)) <= 1)%nat /\
  (length (filter is_content (calls tr)) <= 1)%nat /\
  (length (filter is_launch_call (calls tr)) <= 1)%nat /\
  filter is_close_call (calls tr) = [] /\
  forall p u o, In (Goto p u o) (calls tr) -> u = url secao proc uf /\ o = gotoOptions.

(** The two kinds of result of [consultarProcesso]: the one built from a
    page text it read, and the one built from an error. *)
Definition Outcome (c : Completion Result) (tr : list Event) : Prop :=
  exists r, c = Returned r /\
    ((exists html, In (Some html) (content_of <$> tr) /\ r = found_result html) \/
     (exists e, r = failure e)).

(** What both handlers of /api/consultar do once the three fields have
    passed the validation. *)
Definition consultar_route (secao proc uf : JsValue) : Prog Response :=
  s ← get;
  (if negb (isReady s) then await_async initialize else Ret tt);;
  resultado ← await_async (consultarProcesso secao proc uf);
  Ret {| status := 200; payload := resultado |}.

End WithRuntime.

(** What a handler of /api/consultar answers, for the request object
    [fields]: a response, with one of three statuses; 400 exactly when a
    field is missing or falsy; [sucesso: false] unless the status is 200. *)
Definition Answer (fields : gmap string JsValue) (c : Completion Sent) : Prop :=
  exists r, c = Returned (SentResponse r) /\
    (status r = 400 \/ status r = 200 \/ status r = 500)%nat /\
    (status r = 400%nat <-> fields_given fields = false) /\
    (status r <> 200%nat -> sucesso (payload r) = false).

(** No task of the pool can end by throwing, but those of [initialize]
    and [close]. *)
Definition safe_pool `{Runtime} (cfg : Config) : Prop :=
  forall i op t,
    pool cfg !! i = Some (op, t) ->
    op <> OpInitialize -> op <> OpClose ->
    NoThrowTask t.

(** *** Worlds and inputs of the examples *)

Definition shutdown_error : JsError := Error (js "Protocol error: Connection closed.").

(** The browser refuses to shut down; every other call succeeds. *)
Definition world_stuck : World := fun _ c =>
  match c return Settled (reply c) with
  | Launch _ => Fulfilled (BrowserHandle 1)
  | NewPage _ => Fulfilled (PageHandle 1)
  | Content _ => Fulfilled []
  | SetUserAgent _ _ => Fulfilled tt
  | Goto _ _ _ => Fulfilled tt
  | CloseBrowser _ => Rejected shutdown_error
  end.

Definition page_error : JsError := Error (js "Target closed").

(** The browser is launched but gives no page. *)
Definition world_no_page : World := fun _ c =>
  match c return Settled (reply c) with
  | Launch _ => Fulfilled (BrowserHandle 1)
  | NewPage _ => Rejected page_error
  | Content _ => Fulfilled []
  | SetUserAgent _ _ => Fulfilled tt
  | Goto _ _ _ => Fulfilled tt
  | CloseBrowser _ => Fulfilled tt
  end.

(** A launch that fails: [initialize] is called and its launch settles. *)
Definition failed_launch : list Action := [Invoke OpInitialize; Resume 0].

Definition post_full : Route := PostConsultar {| body := full_fields; query := ∅ |}.
Definition get_full : Route := GetConsultar {| body := ∅; query := full_fields |}.

(** The requests of a session of use, in order. *)
Definition session_of_use : list Route :=
  [GetStatus; PostInicializar; post_full; get_full; GetStatus; PostFechar; GetStatus].


Definition user_agent_error : JsError := Error (js "Protocol error: Session closed.").

(** The browser is launched and gives a page, whose user agent cannot
    be set. *)
Definition world_no_user_agent : World := fun _ c =>
  match c return Settled (reply c) with
  | Launch _ => Fulfilled (BrowserHandle 1)
  | NewPage _ => Fulfilled (PageHandle 1)
  | Content _ => Fulfilled []
  | SetUserAgent _ _ => Rejected user_agent_error
  | Goto _ _ _ => Fulfilled tt
  | CloseBrowser _ => Fulfilled tt
  end.

(** [isReady] is called while [initialize] awaits [setUserAgent]. *)
Definition ready_inside_initialize : list Action :=
  [Invoke OpInitialize; Resume 0; Resume 0; Invoke OpIsReady].

End MoreProps.

Import MoreProps.

(** ** trf1Service.js, the variant written for Vercel *)

Module Vercel.

(** [process.env], as far as [initialize] reads it. *)
Record Env := { VERCEL : option jsstring; CHROMIUM_PATH : option jsstring }.

Record LaunchOptions := {
  headless : bool;
  executablePath : option jsstring;
  args : list jsstring
}.

Record Viewport := { width : Z; height : Z }.
Record WaitOptions := { timeout : Z }.

(** What the listener of "request" events does with a request. *)
Inductive Verdict := Abort | Continue.

Inductive Call :=
| Launch (opts : LaunchOptions)
| NewPage (b : Browser)
| SetUserAgent (p : Page) (ua : jsstring)
| SetViewport (p : Page) (v : Viewport)
| SetRequestInterception (p : Page) (value : bool)
| Goto (p : Page) (url : jsstring) (opts : GotoOptions)
| WaitForSelector (p : Page) (selector : jsstring) (opts : WaitOptions)
| Content (p : Page)
| CloseBrowser (b : Browser).

Definition reply (c : Call) : Type :=
  match c with
  | Launch _ => Browser
  | NewPage _ => Page
  | Content _ => jsstring
  | SetUserAgent _ _ | SetViewport _ _ | SetRequestInterception _ _
  | Goto _ _ _ | WaitForSelector _ _ _ | CloseBrowser _ => unit
  end.

(** Programs as in [Async], over the calls of this variant; [On] is
    [page.on(event, listener)], which returns at once. A listener is
    given by what it does with a request of a given resource type. *)
Inductive Prog (A : Type) : Type :=
| Ret (a : A)
| Throw (e : JsError)
| Get (k : Session -> Prog A)
| Put (s : Session) (k : Prog A)
| Console (l : ConsoleLine) (k : Prog A)
| On (p : Page) (event : jsstring) (listener : jsstring -> Verdict) (k : Prog A)
| Yield (k : Prog A)
| Await (c : Call) (k : Settled (reply c) -> Prog A).
Arguments Ret {A} a.
Arguments Throw {A} e.
Arguments Get {A} k.
Arguments Put {A} s k.
Arguments Console {A} l k.
Arguments On {A} p event listener k.
Arguments Yield {A} k.
Arguments Await {A} c k.

Fixpoint bind {A B} (p : Prog A) (f : A -> Prog B) : Prog B :=
  match p with
  | Ret a => f a
  | Throw e => Throw e
  | Get k => Get (fun s => bind (k s) f)
  | Put s k => Put s (bind k f)
  | Console l k => Console l (bind k f)
  | On p event listener k => On p event listener (bind k f)
  | Yield k => Yield (bind k f)
  | Await c k => Await c (fun r => bind (k r) f)
  end.

#[global] Instance prog_ret : MRet Prog := @Ret.
#[global] Instance prog_bind : MBind Prog := fun A B f p => bind p f.

Fixpoint try_catch {A} (p : Prog A) (h : JsError -> Prog A) : Prog A :=
  match p with
  | Ret a => Ret a
  | Throw e => h e
  | Get k => Get (fun s => try_catch (k s) h)
  | Put s k => Put s (try_catch k h)
  | Console l k => Console l (try_catch k h)
  | On p event listener k => On p event listener (try_catch k h)
  | Yield k => Yield (try_catch k h)
  | Await c k => Await c (fun r => try_catch (k r) h)
  end.

Fixpoint try_finally {A} (p : Prog A) (f : Prog unit) : Prog A :=
  match p with
  | Ret a => bind f (fun _ => Ret a)
  | Throw e => bind f (fun _ => Throw e)
  | Get k => Get (fun s => try_finally (k s) f)
  | Put s k => Put s (try_finally k f)
  | Console l k => Console l (try_finally k f)
  | On p event listener k => On p event listener (try_finally k f)
  | Yield k => Yield (try_finally k f)
  | Await c k => Await c (fun r => try_finally (k r) f)
  end.

Definition get : Prog Session := Get Ret.
Definition modify (f : Session -> Session) : Prog unit :=
  Get (fun s => Put (f s) (Ret tt)).
Definition console (l : ConsoleLine) : Prog unit := Console l (Ret tt).
Definition on (p : Page) (event : jsstring) (listener : jsstring -> Verdict) : Prog unit :=
  On p event listener (Ret tt).
Definition throw {A} (e : JsError) : Prog A := Throw e.

Definition await (c : Call) : Prog (reply c) :=
  Await c (fun r => match r with Fulfilled v => Ret v | Rejected e => Throw e end).

Definition await_async {A} (p : Prog A) : Prog A :=
  try_finally p (Yield (Ret tt)).

Definition receiver {H} (o : option H) (m : string) : Prog H :=
  match o with
  | Some h => Ret h
  | None => Throw (TypeError (js "Cannot read properties of null (reading '" ++ js m ++ js "')"))
  end.

(** [process.env.VERCEL === "1"] *)
Definition isVercel (env : Env) : bool :=
  bool_decide (VERCEL env = Some (js "1")).

(** [isVercel ? process.env.CHROMIUM_PATH || "/usr/bin/chromium" : undefined] *)
Definition executablePath_of (env : Env) : option jsstring :=
  if isVercel env
  then Some (match CHROMIUM_PATH env with
             | Some path => if bool_decide (path = []) then js "/usr/bin/chromium" else path
             | None => js "/usr/bin/chromium"
             end)
  else None.

Definition launchOptions (env : Env) : LaunchOptions :=
  {| headless := true;
     executablePath := executablePath_of env;
     args := [js "--no-sandbox"; js "--disable-setuid-sandbox";
              js "--disable-dev-shm-usage"; js "--disable-gpu";
              js "--disable-web-resources"; js "--disable-extensions";
              js "--disable-plugins"; js "--disable-images";
              js "--single-process"; js "--no-first-run";
              js "--no-default-browser-check"] |}.

Definition viewport : Viewport := {| width := 1920; height := 1080 |}.

(** The listener [initialize] registers for "request" events. *)
Definition on_request (resourceType : jsstring) : Verdict :=
  if bool_decide (resourceType ∈ [js "image"; js "stylesheet"; js "font"; js "media"])
  then Abort
  else Continue.

Definition selector : jsstring := js "a.listar-processo".
Definition waitOptions : WaitOptions := {| timeout := 30000 |}.

Section WithEnv.
Context (env : Env) `{Runtime}.

Definition initialize : Prog unit :=
  s ← get;
  if non_null (browser s) || isInitializing s then Ret tt
  else
    modify (set_isInitializing true);;
    try_finally
      (try_catch
         (console (console_log (js "[TRF1Service] Inicializando navegador Puppeteer..."));;
          b ← await (Launch (launchOptions env));
          modify (set_browser (Some b));;
          s ← get;
          b ← receiver (browser s) "newPage";
          p ← await (NewPage b);
          modify (set_page (Some p));;
          s ← get;
          p ← receiver (page s) "setUserAgent";
          await (SetUserAgent p userAgent);;
          s ← get;
          p ← receiver (page s) "setViewport";
          await (SetViewport p viewport);;
          s ← get;
          p ← receiver (page s) "setRequestInterception";
          await (SetRequestInterception p true);;
          s ← get;
          p ← receiver (page s) "on";
          on p (js "request") on_request;;
          console (console_log (js "[TRF1Service] Navegador inicializado com sucesso!")))
         (fun error =>
            console (console_error (js "[TRF1Service] Erro ao inicializar navegador:") error);;
            modify (set_browser None);;
            modify (set_page None);;
            throw error))
      (modify (set_isInitializing false)).

(** The [for ... of] loop over the keywords; this variant writes nothing
    in it. *)
Fixpoint scan (html : jsstring) (palavras : list jsstring) : bool * jsstring :=
  match palavras with
  | [] => (false, [])
  | palavra :: rest =>
      if includes (toLowerCase html) (toLowerCase palavra)
      then (true, palavra)
      else scan html rest
  end.

Definition consultarProcesso (secao proc uf : JsValue) : Prog Result :=
  try_catch
    (s ← get;
     (if negb (non_null (browser s)) || negb (non_null (page s))
      then await_async initialize else Ret tt);;
     s ← get;
     (if negb (non_null (page s))
      then throw (Error (js "Falha ao inicializar a página")) else Ret tt);;
     console (console_log (js "[TRF1Service] Consultando: " ++ url secao proc uf));;
     s ← get;
     p ← receiver (page s) "goto";
     await (Goto p (url secao proc uf) gotoOptions);;
     console (console_log (js "[TRF1Service] Página carregada com sucesso"));;
     try_catch
       (s ← get;
        p ← receiver (page s) "waitForSelector";
        await (WaitForSelector p selector waitOptions);;
        console (console_log (js "[TRF1Service] Conteúdo principal carregado")))
       (fun _ =>
          console (console_log
                     (js "[TRF1Service] Seletor esperado não encontrado, continuando...")));;
     s ← get;
     p ← receiver (page s) "content";
     html ← await (Content p);
     let found := scan html palavrasChaveRPV in
     let tem : bool := found.1 in
     let detalhesRPV : jsstring := found.2 in
     Ret {| sucesso := true;
            mensagem := if tem then js "RPV encontrada: " ++ detalhesRPV
                        else js "Página carregada, mas RPV não foi encontrada";
            temRPV := Some tem;
            detalhes := Some detalhesRPV |})
    (fun error =>
       console (console_error (js "[TRF1Service] Erro durante a consulta:") error);;
       Ret {| sucesso := false;
              mensagem := js "Erro durante a consulta: " ++ message error;
              temRPV := None;
              detalhes := None |}).

End WithEnv.

Definition close : Prog unit :=
  s ← get;
  match browser s with
  | Some b =>
      await (CloseBrowser b);;
      modify (set_browser None);;
      modify (set_page None);;
      console (console_log (js "[TRF1Service] Navegador fechado"))
  | None => Ret tt
  end.

Definition isReady (s : Session) : bool :=
  non_null (browser s) && non_null (page s).

(** *** Execution, one caller *)

Inductive Event :=
| EvCall (c : Call)
| EvSettle (c : Call) (r : Settled (reply c))
| EvConsole (l : ConsoleLine)
| EvOn (p : Page) (event : jsstring) (listener : jsstring -> Verdict).

Definition World := nat -> forall c : Call, Settled (reply c).

Fixpoint run {A} (w : World) (p : Prog A) (s : Session) (tr : list Event)
  : Completion A * Session * list Event :=
  match p with
  | Ret a => (Returned a, s, tr)
  | Throw e => (Thrown e, s, tr)
  | Get k => run w (k s) s tr
  | Put s' k => run w k s' tr
  | Console l k => run w k s (tr ++ [EvConsole l])
  | On p event listener k => run w k s (tr ++ [EvOn p event listener])
  | Yield k => run w k s tr
  | Await c k =>
      let tr1 := tr ++ [EvCall c] in
      let r := w (length tr1) c in
      run w (k r) s (tr1 ++ [EvSettle c r])
  end.

(** *** Vocabulary of the properties *)

Definition call_of (e : Event) : option Call :=
  match e with EvCall c => Some c | _ => None end.

Definition calls (tr : list Event) : list Call := omap call_of tr.

(** The listeners registered, with their page and event. *)
Definition listener_of (e : Event) : option (Page * jsstring * (jsstring -> Verdict)) :=
  match e with EvOn p event listener => Some (p, event, listener) | _ => None end.

Definition listeners (tr : list Event) : list (Page * jsstring * (jsstring -> Verdict)) :=
  omap listener_of tr.

Definition rejection_of (e : Event) : option JsError :=
  match e with
  | EvSettle _ (Rejected err) => Some err
  | _ => None
  end.

Definition content_of (e : Event) : option jsstring :=
  match e with
  | EvSettle (Content _) (Fulfilled html) => Some html
  | _ => None
  end.

Definition is_close_call (c : Call) : bool :=
  match c with CloseBrowser _ => true | _ => false end.

(** The resource types whose requests the listener aborts. *)
Definition blocked : list jsstring := [js "image"; js "stylesheet"; js "font"; js "media"].

(** Every call succeeds but the wait for the selector, which times out;
    the page's content is [html]. *)
Definition selector_timeout : JsError :=
  {| name := js "TimeoutError";
     message := js "Waiting for selector `a.listar-processo` failed: Waiting failed: 30000ms exceeded" |}.

Definition world_no_selector (html : jsstring) : World := fun _ c =>
  match c return Settled (reply c) with
  | Launch _ => Fulfilled (BrowserHandle 1)
  | NewPage _ => Fulfilled (PageHandle 1)
  | Content _ => Fulfilled html
  | WaitForSelector _ _ _ => Rejected selector_timeout
  | SetUserAgent _ _ | SetViewport _ _ | SetRequestInterception _ _
  | Goto _ _ _ | CloseBrowser _ => Fulfilled tt
  end.

(** Request interception cannot be switched on. *)
Definition interception_error : JsError := Error (js "Protocol error (Fetch.enable): Target closed").

Definition world_no_interception : World := fun _ c =>
  match c return Settled (reply c) with
  | Launch _ => Fulfilled (BrowserHandle 1)
  | NewPage _ => Fulfilled (PageHandle 1)
  | Content _ => Fulfilled []
  | SetRequestInterception _ _ => Rejected interception_error
  | SetUserAgent _ _ | SetViewport _ _
  | Goto _ _ _ | WaitForSelector _ _ _ | CloseBrowser _ => Fulfilled tt
  end.

Definition on_vercel : Env := {| VERCEL := Some (js "1"); CHROMIUM_PATH := None |}.
Definition off_vercel : Env := {| VERCEL := None; CHROMIUM_PATH := None |}.

End Vercel.

(** * Properties *)

Arguments js : simpl never.
Arguments decimal : simpl never.

(** ** Substring search *)

Section Strings.

Lemma startsWith_prefix (s pat : jsstring) :
  startsWith s pat = true <-> exists post, s = pat ++ post.
Proof.
  revert s. induction pat as [|p pat IH]; intros s; simpl.
  - split; [intros _; by exists s | done].
  - destruct s as [|c s].
    + split; [done | intros [post Hpost]; discriminate Hpost].
    + rewrite andb_true_iff, N.eqb_eq, IH. split.
      * intros [-> [post ->]]. by exists post.
      * intros [post Hpost]. injection Hpost as -> ->. eauto.
Qed.

Lemma includes_Substring (s pat : jsstring) :
  includes s pat = true <-> Substring pat s.
Proof.
  unfold Substring. induction s as [|c s IH]; simpl.
  - rewrite orb_false_r, startsWith_prefix. split.
    + intros [post Hpost]. by exists [], post.
    + intros (pre & post & Heq). destruct pre; [by exists post | discriminate Heq].
  - rewrite orb_true_iff, startsWith_prefix, IH. split.
    + intros [[post Hpost] | (pre & post & ->)].
      * by exists [], post.
      * by exists (c :: pre), post.
    + intros (pre & post & Heq). destruct pre as [|c' pre]; simpl in Heq.
      * left. by exists post.
      * right. injection Heq as _ ->. by exists pre, post.
Qed.

Lemma includes_false (s pat : jsstring) :
  includes s pat = false <-> ~ Substring pat s.
Proof. rewrite <- includes_Substring. by destruct (includes s pat). Qed.

(** With the Latin-1 case mapping, which works unit by unit, a keyword
    matches exactly when some run of the text has the same lower-casing. *)
Lemma latin1_Matches_occurrence (html kw : jsstring) :
  @Matches latin1_runtime html kw <->
  exists mid, Substring mid html /\ latin1_toLowerCase mid = latin1_toLowerCase kw.
Proof.
  unfold Matches, Substring. simpl. unfold latin1_toLowerCase. split.
  - intros (pre & post & Heq).
    apply fmap_app_inv in Heq as (l1 & l23 & -> & Heq & ->). symmetry in Heq.
    apply fmap_app_inv in Heq as (l2 & l3 & Hmid & -> & ->).
    exists l2. split; [by exists l1, l3 | done].
  - intros (mid & (pre & post & ->) & Hmid).
    exists (lower_unit <$> pre), (lower_unit <$> post).
    by rewrite !fmap_app, Hmid.
Qed.

End Strings.

(** ** The keyword loop *)

Section Scan.
Context `{Runtime}.

Lemma scan_consoles (html : jsstring) (kws : list jsstring) :
  scan html kws =
  consoles (replicate (scan_turns html kws) (console_log html))
           (Ret (scan_value html kws)).
Proof.
  induction kws as [|kw kws IH]; simpl; [done|].
  unfold mbind, prog_bind, console; simpl.
  destruct (includes _ _); simpl; [done | by rewrite IH].
Qed.

Lemma scan_value_found (html : jsstring) (kws : list jsstring) (kw : jsstring) :
  scan_value html kws = (true, kw) -> FirstMatch html kws kw.
Proof.
  induction kws as [|k kws IH]; simpl; [done|].
  destruct (includes _ _) eqn:Hk.
  - intros [= <-]. exists [], kws. repeat split; [|constructor].
    by apply includes_Substring.
  - intros Hrest. destruct (IH Hrest) as (before & after & -> & Hm & Hno).
    exists (k :: before), after. repeat split; [done|].
    constructor; [|done]. by apply includes_false.
Qed.

Lemma scan_value_none (html : jsstring) (kws : list jsstring) (d : jsstring) :
  scan_value html kws = (false, d) ->
  d = [] /\ Forall (fun k => ~ Matches html k) kws.
Proof.
  induction kws as [|k kws IH]; simpl.
  - intros [= <-]. by split.
  - destruct (includes _ _) eqn:Hk; [done|].
    intros Hrest. destruct (IH Hrest) as [-> Hno]. split; [done|].
    constructor; [|done]. by apply includes_false.
Qed.

Lemma FirstMatch_Exists (html : jsstring) (kws : list jsstring) (kw : jsstring) :
  FirstMatch html kws kw -> Exists (Matches html) kws.
Proof.
  intros (before & after & -> & Hm & _).
  apply Exists_app. right. by constructor.
Qed.

Lemma no_match_not_Exists (html : jsstring) (kws : list jsstring) :
  Forall (fun k => ~ Matches html k) kws -> ~ Exists (Matches html) kws.
Proof.
  induction 1 as [|k kws Hk _ IH]; intros Hex; inversion Hex; subst; tauto.
Qed.

End Scan.

(** ** Programs and their executions *)

Section Programs.

Lemma bind_consoles {A B} (ls : list ConsoleLine) (p : Prog A) (f : A -> Prog B) :
  bind (consoles ls p) f = consoles ls (bind p f).
Proof. induction ls as [|l ls IH]; simpl; [done | by rewrite IH]. Qed.

Lemma try_catch_consoles {A} (ls : list ConsoleLine) (p : Prog A) (h : JsError -> Prog A) :
  try_catch (consoles ls p) h = consoles ls (try_catch p h).
Proof. induction ls as [|l ls IH]; simpl; [done | by rewrite IH]. Qed.

Lemma try_finally_consoles {A} (ls : list ConsoleLine) (p : Prog A) (f : Prog unit) :
  try_finally (consoles ls p) f = consoles ls (try_finally p f).
Proof. induction ls as [|l ls IH]; simpl; [done | by rewrite IH]. Qed.

Lemma run_consoles {A} (w : World) (ls : list ConsoleLine) (p : Prog A) s tr :
  run w (consoles ls p) s tr = run w p s (tr ++ (EvConsole <$> ls)).
Proof.
  revert tr. induction ls as [|l ls IH]; intros tr; simpl.
  - by rewrite app_nil_r.
  - rewrite IH. by rewrite <- app_assoc.
Qed.

Lemma ensures_consoles {A} R (ls : list ConsoleLine) (p : Prog A) s tr Q :
  ensures R (consoles ls p) s tr Q <-> ensures R p s (tr ++ (EvConsole <$> ls)) Q.
Proof.
  revert tr. induction ls as [|l ls IH]; intros tr; simpl.
  - by rewrite app_nil_r.
  - rewrite IH. by rewrite <- app_assoc.
Qed.

Lemma ensures_weaken {A} (R R' : Session -> Session -> Prop) (p : Prog A) s tr
  (Q Q' : Completion A -> Session -> list Event -> Prop) :
  (forall s1 s2, R' s1 s2 -> R s1 s2) ->
  (forall c s' tr', Q c s' tr' -> Q' c s' tr') ->
  ensures R p s tr Q -> ensures R' p s tr Q'.
Proof.
  intros HR HQ. revert s tr.
  induction p as [a|e|k IH|s0 k IH|l k IH|k IH|c k IH]; intros s tr; simpl; eauto.
Qed.

(** What holds of every execution holds of the execution alone. *)
Lemma ensures_run {A} R (p : Prog A) s tr Q (w : World) :
  (forall s0, R s0 s0) ->
  ensures R p s tr Q ->
  Q (run w p s tr).1.1 (run w p s tr).1.2 (run w p s tr).2.
Proof.
  intros HR. revert s tr.
  induction p as [a|e|k IH|s0 k IH|l k IH|k IH|c k IH]; intros s tr; simpl; eauto.
Qed.

Lemma ensures_bind {A B} R (p : Prog A) (f : A -> Prog B) s tr Q :
  ensures R p s tr (fun c s' tr' =>
    match c with
    | Returned a => ensures R (f a) s' tr' Q
    | Thrown e => Q (Thrown e) s' tr'
    end) ->
  ensures R (bind p f) s tr Q.
Proof.
  revert s tr.
  induction p as [a|e|k IH|s0 k IH|l k IH|k IH|c k IH]; intros s tr; simpl; eauto.
Qed.

Lemma ensures_try_catch {A} R (p : Prog A) (h : JsError -> Prog A) s tr Q :
  ensures R p s tr (fun c s' tr' =>
    match c with
    | Returned a => Q (Returned a) s' tr'
    | Thrown e => ensures R (h e) s' tr' Q
    end) ->
  ensures R (try_catch p h) s tr Q.
Proof.
  revert s tr.
  induction p as [a|e|k IH|s0 k IH|l k IH|k IH|c k IH]; intros s tr; simpl; eauto.
Qed.

Lemma ensures_await_async {A} R (p : Prog A) s tr Q :
  ensures R p s tr (fun c s' tr' => forall s'', R s' s'' -> Q c s'' tr') ->
  ensures R (await_async p) s tr Q.
Proof.
  unfold await_async. revert s tr.
  induction p as [a|e|k IH|s0 k IH|l k IH|k IH|c k IH]; intros s tr; simpl; eauto.
Qed.

Lemma NoThrow_try_catch {A} (p : Prog A) (h : JsError -> Prog A) :
  (forall e, NoThrow (h e)) -> NoThrow (try_catch p h).
Proof.
  intros Hh.
  induction p as [a|e|k IH|s0 k IH|l k IH|k IH|c k IH]; simpl; eauto.
Qed.

Lemma NoThrow_bind {A B} (p : Prog A) (f : A -> Prog B) :
  NoThrow p -> (forall a, NoThrow (f a)) -> NoThrow (bind p f).
Proof.
  intros Hp Hf.
  induction p as [a|e|k IH|s0 k IH|l k IH|k IH|c k IH]; simpl in *; eauto.
Qed.

Lemma NoThrow_ensures {A} R (p : Prog A) s tr :
  NoThrow p -> ensures R p s tr (fun c _ _ => exists a, c = Returned a).
Proof.
  revert s tr.
  induction p as [a|e|k IH|s0 k IH|l k IH|k IH|c k IH]; intros s tr Hp;
    simpl in *; eauto; done.
Qed.

End Programs.

(** ** Symbolic execution of the methods *)

Ltac exec_step :=
  match goal with
  | |- forall _, _ => intro
  | H : undisturbed _ _ |- _ => red in H; subst
  | H : disturbed _ _ |- _ => clear H
  | |- context [match ?x with _ => _ end] => is_var x; destruct x
  | |- context [if ?x then _ else _] => is_var x; destruct x
  | |- context [receiver ?x _] => is_var x; destruct x
  | |- context [non_null ?x] => is_var x; destruct x
  | |- context [browser ?s] => is_var s; destruct s as [? ? ?]
  | |- context [page ?s] => is_var s; destruct s as [? ? ?]
  | |- context [isInitializing ?s] => is_var s; destruct s as [? ? ?]
  end.

Ltac exec := simpl; repeat (exec_step; simpl).

Section Traces.

Lemma console_no_content ls html :
  ~ In (Some html) (content_of <$> (EvConsole <$> ls)).
Proof. induction ls; simpl; [tauto | intros [?|?]; done]. Qed.

Lemma console_no_rejection ls e :
  ~ In (Some e) (rejection_of <$> (EvConsole <$> ls)).
Proof. induction ls; simpl; [tauto | intros [?|?]; done]. Qed.

Lemma In_content_of tr p html :
  In (EvSettle (Content p) (Fulfilled html)) tr -> In (Some html) (content_of <$> tr).
Proof. intros Hin. by apply (in_map content_of) in Hin. Qed.

Lemma In_rejection_of tr c e :
  In (EvSettle c (Rejected e)) tr -> In (Some e) (rejection_of <$> tr).
Proof. intros Hin. by apply (in_map rejection_of) in Hin. Qed.

Lemma rejection_of_In tr e :
  In (Some e) (rejection_of <$> tr) -> exists c, In (EvSettle c (Rejected e)) tr.
Proof.
  intros Hin. apply in_map_iff in Hin as (ev & Hev & Hin).
  destruct ev as [c|c [v|e']|l]; simpl in Hev; try done.
  exists c. by injection Hev as ->.
Qed.

End Traces.

Ltac in_trace H :=
  simpl in H;
  repeat match type of H with
         | _ \/ _ => destruct H as [H|H]
         | False => destruct H
         | None = Some _ => discriminate H
         | Some _ = Some _ => injection H as H; subst
         | In _ (_ (EvConsole <$> _)) =>
             first [ destruct (console_no_content _ _ H)
                   | destruct (console_no_rejection _ _ H) ]
         end.

Opaque js scan palavrasChaveRPV TypeError Error.

(** ** consultarProcesso, one call *)

Section Consulta.
Context `{Runtime}.

Lemma scan_ensures R html (f : bool * jsstring -> Prog Result) h s tr Q :
  ensures R (try_catch (f (scan_value html palavrasChaveRPV)) h) s
    (tr ++ (EvConsole <$> replicate (scan_turns html palavrasChaveRPV) (console_log html))) Q ->
  ensures R (try_catch (scan html palavrasChaveRPV ≫= f) h) s tr Q.
Proof.
  intros HQ. rewrite scan_consoles. unfold mbind, prog_bind.
  rewrite bind_consoles, try_catch_consoles. apply ensures_consoles. exact HQ.
Qed.

Lemma scan_value_Scanned html d b msg :
  scan_value html palavrasChaveRPV = (b, d) ->
  Scanned html {| sucesso := true; mensagem := msg; temRPV := Some b; detalhes := Some d |}.
Proof.
  intros Hv. unfold Scanned; simpl. destruct b.
  - apply scan_value_found in Hv. pose proof (FirstMatch_Exists _ _ _ Hv).
    repeat split; eauto.
  - apply scan_value_none in Hv as [-> Hno]. pose proof (no_match_not_Exists _ _ Hno).
    repeat split; eauto; try done.
Qed.

Ltac consultar_paths :=
  unfold consultarProcesso, initialize;
  exec;
  try (apply scan_ensures; simpl);
  unfold Answered; eexists; (split; [reflexivity|]);
  try destruct (scan_value _ _) as [tem d] eqn:Hv; simpl;
  (split; [intros html Hin; in_trace Hin; by eapply scan_value_Scanned|]);
  (split; [intros err Hin; in_trace Hin; reflexivity|]);
  intros Hs; try discriminate Hs;
  eexists; (split; [reflexivity|]); simpl; tauto.

(** Among other tasks. *)
Lemma consultar_disturbed secao proc uf s :
  ensures disturbed (consultarProcesso secao proc uf) s []
    (fun c _ tr => Answered false c tr).
Proof. consultar_paths. Qed.

(** Alone. *)
Lemma consultar_undisturbed secao proc uf s :
  ensures undisturbed (consultarProcesso secao proc uf) s []
    (fun c _ tr => Answered true c tr).
Proof. consultar_paths. Qed.

End Consulta.

(** ** The event loop: what no interleaving can do *)

Section Machine.
Context `{Runtime}.

Lemma exec_invariant (I : Config -> Prop) (w : World) :
  (forall cfg a cfg', I cfg -> step w cfg a = Some cfg' -> I cfg') ->
  forall acts cfg cfg', I cfg -> exec w cfg acts = Some cfg' -> I cfg'.
Proof.
  intros Hstep. induction acts as [|a acts IH]; intros cfg cfg' HI; simpl.
  - by intros [= <-].
  - destruct (step w cfg a) as [cfg1|] eqn:Hs; simpl; [|done].
    intros Hexec. eapply IH; [|exact Hexec]. eauto.
Qed.

Lemma advance_NoThrow (p : Prog Val) s tr :
  NoThrow p -> NoThrowTask (advance p s tr).1.1.
Proof.
  revert s tr.
  induction p as [a|e|k IH|s0 k IH|l k IH|k IH|c k IH]; intros s tr Hp;
    simpl in *; eauto.
Qed.

Lemma NoThrow_consultarProcesso secao proc uf :
  NoThrow (op_prog (OpConsultar secao proc uf)).
Proof.
  change (NoThrow (bind (consultarProcesso secao proc uf) (fun r => Ret (ValResult r)))).
  apply NoThrow_bind; [|done].
  unfold consultarProcesso. by apply NoThrow_try_catch.
Qed.

Lemma consultas_safe_step w cfg a cfg' :
  consultas_safe cfg -> step w cfg a = Some cfg' -> consultas_safe cfg'.
Proof.
  intros Hsafe Hstep. destruct a as [op|i]; simpl in Hstep.
  - destruct (advance (op_prog op) (session cfg) (trace cfg)) as [[t s] tr] eqn:Hadv.
    injection Hstep as <-. intros j secao proc uf t' Hj; simpl in Hj.
    apply lookup_app_Some in Hj as [Hj|[_ Hj]]; [by eapply Hsafe|].
    apply list_lookup_singleton_Some in Hj as [_ [= -> ->]].
    pose proof (advance_NoThrow _ (session cfg) (trace cfg)
                  (NoThrow_consultarProcesso secao proc uf)) as Hnt.
    by rewrite Hadv in Hnt.
  - destruct (pool cfg !! i) as [[op t]|] eqn:Hi; simpl in Hstep; [|done].
    destruct (resume w t (session cfg) (trace cfg)) as [[[t1 s1] tr1]|] eqn:Hres;
      simpl in Hstep; [|done].
    injection Hstep as <-. intros j secao proc uf t' Hj; simpl in Hj.
    destruct (decide (i = j)) as [->|Hne].
    + rewrite list_lookup_insert_eq in Hj by (by eapply lookup_lt_Some).
      injection Hj as -> ->.
      specialize (Hsafe _ _ _ _ _ Hi).
      destruct t as [c k|k|r]; simpl in Hres; [| |done].
      * injection Hres as Hres. 
        pose proof (advance_NoThrow (k (w (length (trace cfg)) c)) (session cfg)
                      (trace cfg ++ [EvSettle c (w (length (trace cfg)) c)]) (Hsafe _)) as Hnt.
        by rewrite Hres in Hnt.
      * injection Hres as Hres.
        pose proof (advance_NoThrow k (session cfg) (trace cfg) Hsafe) as Hnt.
        by rewrite Hres in Hnt.
    + rewrite list_lookup_insert_ne in Hj by done. by eapply Hsafe.
Qed.

Lemma consultas_never_throw w acts cfg i secao proc uf e :
  exec w boot acts = Some cfg ->
  pool cfg !! i <> Some (OpConsultar secao proc uf, TDone (Thrown e)).
Proof.
  intros Hexec Hi.
  assert (consultas_safe cfg) as Hsafe.
  { eapply (exec_invariant consultas_safe); [apply consultas_safe_step| |exact Hexec].
    intros j ? ? ? ? Hj. simpl in Hj. by rewrite lookup_nil in Hj. }
  exact (Hsafe _ _ _ _ _ Hi).
Qed.
End Machine.

(** ** Claims on consultarProcesso *)

Section ConsultaClaims.
Context `{Runtime}.

(** A run only adds to the trace. *)
Lemma run_extends {A} (w : World) (p : Prog A) s tr :
  exists suffix, (run w p s tr).2 = tr ++ suffix.
Proof.
  revert s tr.
  induction p as [a|e|k IH|s0 k IH|l k IH|k IH|c k IH]; intros s tr; simpl; eauto.
  - exists []. by rewrite app_nil_r.
  - exists []. by rewrite app_nil_r.
  - destruct (IH s (tr ++ [EvConsole l])) as [suffix ->]. rewrite <- app_assoc. eauto.
  - destruct (IH (w (length (tr ++ [EvCall c])) c) s
                ((tr ++ [EvCall c]) ++ [EvSettle c (w (length (tr ++ [EvCall c])) c)]))
      as [suffix ->].
    rewrite <- !app_assoc. eauto.
Qed.

(** The first match is the only one. *)
Lemma FirstMatch_unique (html : jsstring) (kws : list jsstring) (kw kw' : jsstring) :
  FirstMatch html kws kw -> FirstMatch html kws kw' -> kw = kw'.
Proof.
  intros (b1 & a1 & -> & Hm1 & Hno1) (b2 & a2 & Heq & Hm2 & Hno2).
  revert b2 Heq Hno2. induction b1 as [|k b1 IH]; intros [|k2 b2] Heq Hno2; simpl in Heq.
  - by injection Heq.
  - injection Heq as -> _. by inversion Hno2.
  - injection Heq as -> _. by inversion Hno1.
  - injection Heq as -> Heq. inversion Hno1; inversion Hno2; subst. eauto.
Qed.

(** Where no call is rejected and the page has the text [html], a
    session with a page, or with neither browser nor guard, gets that
    text read. *)
Lemma consultar_reads_page (w : World) (s : Session) (secao proc uf : JsValue)
  (html : jsstring) :
  (forall n c, exists v, w n c = Fulfilled v) ->
  (forall n p, w n (Content p) = Fulfilled html) ->
  page s <> None \/ (browser s = None /\ isInitializing s = false) ->
  exists p,
    In (EvSettle (Content p) (Fulfilled html))
       (run w (consultarProcesso secao proc uf) s []).2.
Proof.
  intros Hall Hc Hs. unfold consultarProcesso.
  destruct s as [[b|] [p|] [|]]; simpl in Hs;
    try (exfalso; destruct Hs as [?|[? ?]]; congruence); clear Hs; simpl;
    repeat match goal with
           | |- context [w ?n (Content ?p)] => rewrite (Hc n p); simpl
           | |- context [w ?n ?c] =>
               let v := fresh "v" in destruct (Hall n c) as [v ->]; simpl
           end;
    match goal with
    | |- context [run w ?q ?s0 ?tr] =>
        destruct (run_extends w q s0 tr) as [suffix ->]
    end;
    eexists; apply in_or_app; left; simpl; repeat first [left; reflexivity | right].
Qed.

(** C1. Whenever [consultarProcesso] obtains the page's HTML text (its
    [page.content()] is fulfilled with [html]), it returns a result with
    [sucesso = true]; [temRPV] is [true] iff at least one of the six
    keywords, "Requisição de Pequeno Valor", "RPV", "migração", "migrado",
    "precatório", "requisitorio", is a case-insensitive substring of
    [html]; and [detalhes] is the first keyword, in that order, that is
    one, or the empty string when none is. This holds of every text a
    [page.content()] of the call was fulfilled with, in any world. And
    the text is obtained: where no call is rejected and the page the
    browser delivers has the text [html], a call on a session that has a
    page, or that has no browser and no initialization under way, returns
    that result for [html]. *)
Theorem consultarProcesso_scans_keywords
  (w : World) (s : Session) (secao proc uf : JsValue) :
  let out := run w (consultarProcesso secao proc uf) s [] in
  palavrasChaveRPV =
    [js "Requisição de Pequeno Valor"; js "RPV"; js "migração"; js "migrado";
     js "precatório"; js "requisitorio"] /\
  (forall p html,
      In (EvSettle (Content p) (Fulfilled html)) out.2 ->
      exists r,
        out.1.1 = Returned r /\
        sucesso r = true /\
        (temRPV r = Some true \/ temRPV r = Some false) /\
        (temRPV r = Some true <-> Exists (Matches html) palavrasChaveRPV) /\
        ((exists kw, FirstMatch html palavrasChaveRPV kw /\ detalhes r = Some kw) \/
         (Forall (fun k => ~ Matches html k) palavrasChaveRPV /\ detalhes r = Some []))) /\
  (forall html,
      (forall n c, exists v, w n c = Fulfilled v) ->
      (forall n p, w n (Content p) = Fulfilled html) ->
      page s <> None \/ (browser s = None /\ isInitializing s = false) ->
      exists r,
        out.1.1 = Returned r /\
        sucesso r = true /\
        (temRPV r = Some true \/ temRPV r = Some false) /\
        (temRPV r = Some true <-> Exists (Matches html) palavrasChaveRPV) /\
        ((exists kw, FirstMatch html palavrasChaveRPV kw /\ detalhes r = Some kw) \/
         (Forall (fun k => ~ Matches html k) palavrasChaveRPV /\ detalhes r = Some []))).
Proof.
  intros out. split; [by vm_compute|].
  assert (forall p html,
             In (EvSettle (Content p) (Fulfilled html)) out.2 ->
             exists r, out.1.1 = Returned r /\ Scanned html r) as Hread.
  { intros p html Hin.
    pose proof (ensures_run undisturbed _ s [] _ w (fun _ => eq_refl)
                  (consultar_undisturbed secao proc uf s)) as (r & Hr & Hscan & _).
    exists r. split; [exact Hr|]. apply Hscan. by eapply In_content_of. }
  split; [exact Hread|].
  intros html Hall Hc Hs.
  destruct (consultar_reads_page w s secao proc uf html Hall Hc Hs) as [p Hin].
  by apply (Hread p).
Qed.

(** C2. Every failure inside [consultarProcesso] (of the session's
    initialization, of the navigation, of the extraction of the content)
    is caught and turned into a result with [sucesso = false] whose
    message contains the message of the underlying error; no exception
    leaves [consultarProcesso], called alone or as one task of many. *)
Theorem consultarProcesso_never_throws
  (w : World) (s : Session) (secao proc uf : JsValue) :
  let out := run w (consultarProcesso secao proc uf) s [] in
  (exists r,
      out.1.1 = Returned r /\
      (forall c e, In (EvSettle c (Rejected e)) out.2 ->
         sucesso r = false /\
         mensagem r = js "Erro durante a consulta: " ++ message e /\
         Substring (message e) (mensagem r)) /\
      (sucesso r = false ->
         exists e,
           mensagem r = js "Erro durante a consulta: " ++ message e /\
           Substring (message e) (mensagem r) /\
           ((exists c, In (EvSettle c (Rejected e)) out.2) \/ e = falha_pagina))) /\
  (forall acts cfg i e,
      exec w boot acts = Some cfg ->
      pool cfg !! i <> Some (OpConsultar secao proc uf, TDone (Thrown e))).
Proof.
  intros out. split; [|intros; by eapply consultas_never_throw].
  pose proof (ensures_run undisturbed _ s [] _ w (fun _ => eq_refl)
                (consultar_undisturbed secao proc uf s)) as (r & Hr & _ & Hrej & Hfail).
  exists r. split; [exact Hr|]. split.
  - intros c e Hin. apply In_rejection_of, Hrej in Hin. subst r.
    split; [done|]. split; [done|].
    by exists (js "Erro durante a consulta: "), []; rewrite app_nil_r.
  - intros Hs. destruct (Hfail Hs) as (e & -> & Horigin). exists e.
    split; [done|]. split; [by exists (js "Erro durante a consulta: "), []; rewrite app_nil_r|].
    destruct Horigin as [Hin|[->|[? _]]]; [left|by right|done].
    by apply rejection_of_In.
Qed.

End ConsultaClaims.

(** ** The life cycle of the session *)

Section Lifecycle.
Context `{Runtime}.

Lemma initialize_disturbed s :
  non_null (browser s) || isInitializing s = false ->
  ensures disturbed initialize s [] Reset.
Proof.
  intros Hg. destruct s as [[b|] p [|]]; try done. clear Hg.
  unfold initialize. exec.
  all: unfold Reset; simpl.
  all: split; [reflexivity|].
  all: split; [intros err Hin; in_trace Hin; done|].
  all: intros err [= <-]; tauto.
Qed.

Lemma initialize_noop_run w s tr :
  non_null (browser s) || isInitializing s = true ->
  run w initialize s tr = (Returned tt, s, tr).
Proof. destruct s as [[b|] p [|]]; done. Qed.

Lemma initialize_noop_advance s tr :
  non_null (browser s) || isInitializing s = true ->
  advance (op_prog OpInitialize) s tr = (TDone (Returned ValUnit), s, tr).
Proof. destruct s as [[b|] p [|]]; done. Qed.

Lemma initialize_returned w s tr :
  (run w initialize s tr).1.1 = Returned tt ->
  non_null (browser (run w initialize s tr).1.2)
    || isInitializing (run w initialize s tr).1.2 = true.
Proof.
  destruct s as [[b|] p [|]]; try done. simpl.
  repeat match goal with
  | |- context [w ?n ?c] => destruct (w n c); simpl
  end; done.
Qed.

Lemma lifecycle_snoc tr e : lifecycle (tr ++ [e]) = lifecycle_step (lifecycle tr) e.
Proof. unfold lifecycle. by rewrite fold_left_app. Qed.

Lemma lifecycle_consoles tr ls : lifecycle (tr ++ (EvConsole <$> ls)) = lifecycle tr.
Proof.
  unfold lifecycle. rewrite fold_left_app. generalize (fold_left lifecycle_step tr false).
  induction ls as [|l ls IH]; intros b; simpl; [done | apply IH].
Qed.

Ltac settle :=
  unfold Settled_down, idle; simpl;
  rewrite ?lifecycle_consoles, ?lifecycle_snoc; simpl;
  rewrite ?lifecycle_consoles, ?lifecycle_snoc; simpl;
  intuition (try congruence).

Lemma Settles_bind {A B} (p : Prog A) (f : A -> Prog B) :
  Settles p -> (forall a, Settles (f a)) -> Settles (p ≫= f).
Proof.
  intros Hp Hf s tr Hs. apply ensures_bind.
  eapply ensures_weaken; [| |exact (Hp s tr Hs)]; [done|].
  intros [a|e] s' tr' Hs'; [by apply Hf | exact Hs'].
Qed.

Lemma Settles_try_catch {A} (p : Prog A) (h : JsError -> Prog A) :
  Settles p -> (forall e, Settles (h e)) -> Settles (try_catch p h).
Proof.
  intros Hp Hh s tr Hs. apply ensures_try_catch.
  eapply ensures_weaken; [| |exact (Hp s tr Hs)]; [done|].
  intros [a|e] s' tr' Hs'; [exact Hs' | by apply Hh].
Qed.

Lemma Settles_await_async {A} (p : Prog A) : Settles p -> Settles (await_async p).
Proof.
  intros Hp s tr Hs. apply ensures_await_async.
  eapply ensures_weaken; [| |exact (Hp s tr Hs)]; [done|].
  intros c s' tr' Hs' s'' <-. exact Hs'.
Qed.

Lemma Settles_Ret {A} (a : A) : Settles (Ret a).
Proof. intros s tr Hs. exact Hs. Qed.

Lemma Settles_get : Settles get.
Proof. intros s tr Hs. exact Hs. Qed.

Lemma initialize_settles : Settles initialize.
Proof.
  unfold initialize. intros s tr [[Hg Hbp] Hr]. destruct s as [b p g]; simpl in *; subst g.
  destruct b as [b|], p as [p|]; try (exfalso; intuition congruence); simpl.
  - settle.
  - exec; settle.
Qed.

Lemma close_settles : Settles close.
Proof.
  unfold close. intros s tr [[Hg Hbp] Hr]. destruct s as [b p g]; simpl in *; subst g.
  destruct b as [b|], p as [p|]; try (exfalso; intuition congruence); simpl.
  - exec; settle.
  - settle.
Qed.

Lemma consultar_settles secao proc uf : Settles (consultarProcesso secao proc uf).
Proof.
  unfold consultarProcesso, initialize.
  intros s tr [[Hg Hbp] Hr]. destruct s as [b p g]; simpl in *; subst g.
  destruct b as [b|], p as [p|]; try (exfalso; intuition congruence); simpl.
  all: exec.
  all: try (apply scan_ensures; simpl).
  all: settle.
Qed.

Lemma post_consultar_settles req : Settles (post_consultar req).
Proof.
  unfold post_consultar. apply Settles_try_catch; [|intros; apply Settles_Ret].
  destruct (_ || _); [apply Settles_Ret|].
  apply Settles_bind; [apply Settles_get|]. intros s.
  apply Settles_bind.
  { destruct (negb _); [apply Settles_await_async, initialize_settles | apply Settles_Ret]. }
  intros _. apply Settles_bind; [apply Settles_await_async, consultar_settles|].
  intros; apply Settles_Ret.
Qed.

Lemma get_consultar_settles req : Settles (get_consultar req).
Proof.
  unfold get_consultar. apply Settles_try_catch; [|intros; apply Settles_Ret].
  destruct (_ || _); [apply Settles_Ret|].
  apply Settles_bind; [apply Settles_get|]. intros s.
  apply Settles_bind.
  { destruct (negb _); [apply Settles_await_async, initialize_settles | apply Settles_Ret]. }
  intros _. apply Settles_bind; [apply Settles_await_async, consultar_settles|].
  intros; apply Settles_Ret.
Qed.

Lemma op_settles op : Settles (op_prog op).
Proof.
  destruct op as [|secao proc uf| | |req|req]; unfold op_prog;
    (apply Settles_bind; [|intros; apply Settles_Ret]).
  - apply initialize_settles.
  - apply consultar_settles.
  - apply close_settles.
  - apply Settles_get.
  - apply post_consultar_settles.
  - apply get_consultar_settles.
Qed.

Lemma boot_settled : Settled_down constructor [].
Proof. by repeat split. Qed.

Lemma run_ops_settled w ops s tr :
  Settled_down s tr ->
  Settled_down (run_ops w ops s tr).1 (run_ops w ops s tr).2.
Proof.
  revert s tr. induction ops as [|op ops IH]; intros s tr Hs; simpl; [done|].
  pose proof (ensures_run undisturbed _ s tr _ w (fun _ => eq_refl) (op_settles op s tr Hs)) as Hop.
  destruct (run w (op_prog op) s tr) as [[c s'] tr']. by apply IH.
Qed.
End Lifecycle.

(** ** Concurrent calls of initialize *)

Section Race.
Context `{Runtime}.

Lemma launches_snoc tr e :
  launches (tr ++ [e]) = (launches tr + (if is_launch e then 1 else 0))%nat.
Proof.
  unfold launches. rewrite filter_app, length_app. f_equal.
  rewrite filter_cons, filter_nil. by destruct (is_launch e) eqn:He; rewrite ?He.
Qed.

Lemma rejections_snoc tr e :
  rejections (tr ++ [e]) = (rejections tr + (if is_rejection e then 1 else 0))%nat.
Proof.
  unfold rejections. rewrite filter_app, length_app. f_equal.
  rewrite filter_cons, filter_nil. by destruct (is_rejection e) eqn:He; rewrite ?He.
Qed.

Ltac count := rewrite ?launches_snoc, ?rejections_snoc; simpl; try lia.

Lemma initialize_in_flight s tr :
  non_null (browser s) || isInitializing s = false ->
  let out := advance (op_prog OpInitialize) s tr in
  InFlight 2 out.1.1 /\ out.1.2 = set_isInitializing true s /\
  launches out.2 = S (launches tr) /\ rejections out.2 = rejections tr.
Proof.
  intros Hg. destruct s as [[b|] p [|]]; try done. clear Hg. simpl.
  split; [|split; [done|split; count]].
  intros [b|e] [b0 p0 g0] tr0 Hg0 _; simpl in *; subst g0; (split; [count|]).
  2: { repeat split; count. }
  split; [count|]. split; [done|]. split; [|done].
  intros [p1|e] [b1 p2 g1] tr1 Hg1 Hb1; simpl in *; subst g1; (split; [count|]).
  2: { repeat split; count. }
  split; [count|]. split; [by apply Hb1; lia|]. split; [|done].
  intros [[]|e] [b2 p3 g2] tr2 Hg2 Hb2; simpl in *; subst g2; (split; [count|]).
  2: { repeat split; count. }
  split; [count|]. split; [by apply Hb2; lia|]. done.
Qed.

Lemma InFlight_awaits n t : InFlight n t -> exists c k, t = TAwait c k.
Proof. destruct n, t; simpl; try done; eauto. Qed.

Lemma OneLaunch_step w cfg a cfg' :
  is_initialize a = true ->
  OneLaunch cfg -> step w cfg a = Some cfg' -> OneLaunch cfg'.
Proof.
  intros Ha (Hbound & Hcase) Hstep. unfold OneLaunch.
  destruct a as [op|j]; simpl in Hstep.
  - destruct op; try done. clear Ha.
    destruct (non_null (browser (session cfg)) || isInitializing (session cfg)) eqn:Hg.
    + rewrite (initialize_noop_advance _ _ Hg) in Hstep. injection Hstep as <-.
      split; [exact Hbound|]. simpl.
      destruct Hcase as [(Hi & Hdone & Hnone)|(Hi & i & n & t & Hlook & Hfl & Hb & Hothers)].
      * left. repeat split; [done| |done]. apply Forall_app. split; [done|]. by constructor.
      * right. split; [done|]. exists i, n, t. split.
        { apply lookup_app_l_Some. exact Hlook. }
        split; [done|]. split; [done|].
        intros j x Hne Hj. apply lookup_app_Some in Hj as [Hj|[_ Hj]]; [by eapply Hothers|].
        by apply list_lookup_singleton_Some in Hj as [_ <-].
    + destruct (initialize_in_flight (session cfg) (trace cfg) Hg) as (Hfl & Hs & HL & HR).
      destruct (advance _ _ _) as [[t s] tr]; simpl in *. injection Hstep as <-. simpl.
      destruct Hcase as [(Hi & Hdone & Hnone)|(Hi & _)].
      2: { rewrite Hi, orb_true_r in Hg. done. }
      apply orb_false_iff in Hg as [Hb _]. specialize (Hnone Hb).
      split; [rewrite HL, HR; lia|]. right. subst s. split; [done|].
      exists (length (pool cfg)), 2%nat, t. split.
      { rewrite lookup_app_r by done. by rewrite Nat.sub_diag. }
      split; [done|]. split; [lia|].
      intros j x Hne Hj. apply lookup_app_Some in Hj as [Hj|[Hge Hj]].
      * rewrite Forall_lookup in Hdone. by eapply Hdone.
      * apply list_lookup_singleton_Some in Hj as [Hj _]. lia.
  - destruct (pool cfg !! j) as [[op t]|] eqn:Hj; simpl in Hstep; [|done].
    destruct (resume w t (session cfg) (trace cfg)) as [[[t1 s1] tr1]|] eqn:Hres;
      simpl in Hstep; [|done].
    injection Hstep as <-. simpl.
    destruct Hcase as [(Hi & Hdone & Hnone)|(Hi & i & n & t0 & Hlook & Hfl & Hb & Hothers)].
    { rewrite Forall_lookup in Hdone. specialize (Hdone _ _ Hj). by destruct t. }
    destruct (decide (j = i)) as [->|Hne].
    2: { specialize (Hothers _ _ Hne Hj). by destruct t. }
    rewrite Hj in Hlook. injection Hlook as -> ->.
    destruct (InFlight_awaits _ _ Hfl) as (c & k & ->). simpl in Hres.
    injection Hres as Hres.
    destruct n as [|n]; simpl in Hfl;
      specialize (Hfl (w (length (trace cfg)) c) (session cfg) (trace cfg) Hi Hb);
      rewrite Hres in Hfl; simpl in Hfl;
      destruct Hfl as (HL & Hfl); destruct (w (length (trace cfg)) c) as [v|e].
    + destruct Hfl as (HR & Hb1 & Hd & Hi1). split; [lia|]. left. split; [done|]. split.
      * apply Forall_lookup. intros m x Hm.
        destruct (decide (i = m)) as [->|Hne].
        -- rewrite list_lookup_insert_eq in Hm by (by eapply lookup_lt_Some).
           by injection Hm as <-.
        -- rewrite list_lookup_insert_ne in Hm by done. by eapply Hothers.
      * by rewrite Hb1.
    + destruct Hfl as (Hd & -> & HR). split; [lia|]. left. split; [done|]. split.
      * apply Forall_lookup. intros m x Hm.
        destruct (decide (i = m)) as [->|Hne].
        -- rewrite list_lookup_insert_eq in Hm by (by eapply lookup_lt_Some).
           by injection Hm as <-.
        -- rewrite list_lookup_insert_ne in Hm by done. by eapply Hothers.
      * intros _. lia.
    + destruct Hfl as (HR & Hb1 & Hfl1 & Hi1). split; [lia|]. right. split; [done|].
      exists i, n, t1. split.
      { by rewrite list_lookup_insert_eq by (by eapply lookup_lt_Some). }
      split; [done|]. split; [done|].
      intros m x Hne Hm. rewrite list_lookup_insert_ne in Hm by done. by eapply Hothers.
    + destruct Hfl as (Hd & -> & HR). split; [lia|]. left. split; [done|]. split.
      * apply Forall_lookup. intros m x Hm.
        destruct (decide (i = m)) as [->|Hne].
        -- rewrite list_lookup_insert_eq in Hm by (by eapply lookup_lt_Some).
           by injection Hm as <-.
        -- rewrite list_lookup_insert_ne in Hm by done. by eapply Hothers.
      * intros _. lia.
Qed.

Lemma exec_invariant_on (I : Config -> Prop) (ok : Action -> bool) (w : World) :
  (forall cfg a cfg', ok a = true -> I cfg -> step w cfg a = Some cfg' -> I cfg') ->
  forall acts cfg cfg',
    forallb ok acts = true -> I cfg -> exec w cfg acts = Some cfg' -> I cfg'.
Proof.
  intros Hstep. induction acts as [|a acts IH]; intros cfg cfg' Hok HI; simpl.
  - by intros [= <-].
  - simpl in Hok. apply andb_true_iff in Hok as [Ha Hok].
    destruct (step w cfg a) as [cfg1|] eqn:Hs; simpl; [|done].
    intros Hexec. eapply IH; [exact Hok| |exact Hexec]. eauto.
Qed.

Lemma concurrent_initialize_launches w acts cfg :
  forallb is_initialize acts = true ->
  exec w boot acts = Some cfg ->
  (launches (trace cfg) <= S (rejections (trace cfg)))%nat.
Proof.
  intros Hok Hexec.
  refine (proj1 (exec_invariant_on OneLaunch is_initialize w (OneLaunch_step w) acts boot cfg Hok _ Hexec)).
  split; [by apply Nat.le_0_l|]. left. repeat split; [by constructor|done].
Qed.
End Race.

(** ** Operations in sequence on the event loop *)

Section Orderly.
Context `{Runtime}.

Lemma run_advance (w : World) (p : Prog Val) s tr :
  run w p s tr =
  match advance p s tr with
  | (TDone c, s1, tr1) => (c, s1, tr1)
  | (TYield k, s1, tr1) => run w k s1 tr1
  | (TAwait c k, s1, tr1) =>
      run w (k (w (length tr1) c)) s1 (tr1 ++ [EvSettle c (w (length tr1) c)])
  end.
Proof.
  revert s tr.
  induction p as [a|e|k IH|s0 k IH|l k IH|k IH|c k IH]; intros s tr; simpl; eauto.
Qed.























End Orderly.

(** ** Claims on the session *)

Section SessionClaims.
Context `{Runtime}.

Lemma lifecycle_true tr :
  lifecycle tr = true <->
  exists pre p ua v post,
    tr = pre ++ EvSettle (SetUserAgent p ua) (Fulfilled v) :: post /\
    Forall (fun e => is_shutdown e = false) post.
Proof.
  induction tr as [|e tr IH] using rev_ind.
  - split; [done|]. intros (pre & p & ua & v & post & Heq & _). by destruct pre.
  - rewrite lifecycle_snoc. split.
    + intros Hstep.
      assert ((exists p ua v, e = EvSettle (SetUserAgent p ua) (Fulfilled v)) \/
              (lifecycle tr = true /\ is_shutdown e = false)) as [(p & ua & v & ->)|[Hl He]].
      { destruct e as [c|c r|l]; simpl in *; [by right| |by right].
        destruct c; destruct r as [v|err]; simpl in *;
          first [ by right | left; by do 3 eexists ]. }
      * exists tr, p, ua, v, []. by split; [|constructor].
      * apply IH in Hl as (pre & p & ua & v & post & -> & Hpost).
        exists pre, p, ua, v, (post ++ [e]). split; [by rewrite <- app_assoc|].
        apply Forall_app. split; [done|]. by constructor.
    + intros (pre & p & ua & v & post & Heq & Hpost).
      destruct post as [|e' post _] using rev_ind.
      * apply app_inj_tail in Heq as [_ ->]. done.
      * rewrite app_comm_cons, app_assoc in Heq. apply app_inj_tail in Heq as [-> ->].
        apply Forall_app in Hpost as [Hpost He]. inversion He as [|? ? He' _]; subst.
        assert (lifecycle (pre ++ EvSettle (SetUserAgent p ua) (Fulfilled v) :: post) = true) as ->.
        { apply IH. by exists pre, p, ua, v, post. }
        destruct e' as [c|c r|l]; simpl in *; try done. by destruct c, r.
Qed.

(** C3. [initialize] is idempotent. If a browser handle exists or the
    guard is set it returns at once, without any effect: the session and
    the trace are unchanged, and as a task it completes without being
    suspended. So after an [initialize] that returned, one more call, in
    any world, changes nothing and launches nothing; and in a session that
    has a browser, any number of calls started together all complete at
    once and leave session and trace as they were. When callers of
    [initialize] race on a new service object, however they are
    interleaved, each launch but one follows the rejection of an earlier
    call: as long as no call is rejected, at most one browser is
    launched. *)
Theorem initialize_idempotent (w : World) :
  (forall s tr,
      non_null (browser s) || isInitializing s = true ->
      run w initialize s tr = (Returned tt, s, tr) /\
      advance (op_prog OpInitialize) s tr = (TDone (Returned ValUnit), s, tr)) /\
  (forall s tr,
      let once := run w initialize s tr in
      once.1.1 = Returned tt ->
      forall w', run w' initialize once.1.2 once.2 = (Returned tt, once.1.2, once.2)) /\
  (forall cfg n,
      non_null (browser (session cfg)) = true ->
      exec w cfg (replicate n (Invoke OpInitialize)) =
        Some {| session := session cfg;
                pool := pool cfg ++ replicate n (OpInitialize, TDone (Returned ValUnit));
                trace := trace cfg |}) /\
  (forall acts cfg,
      forallb is_initialize acts = true ->
      exec w boot acts = Some cfg ->
      (launches (trace cfg) <= S (rejections (trace cfg)))%nat /\
      (rejections (trace cfg) = O -> (launches (trace cfg) <= 1)%nat)).
Proof.
  split; [|split; [|split]].
  - intros s tr Hg. split; [by apply initialize_noop_run | by apply initialize_noop_advance].
  - intros s tr once Hret w'. apply initialize_noop_run. by apply initialize_returned.
  - intros cfg n Hb. revert cfg Hb. induction n as [|n IH]; intros [s ts tr] Hb.
    + simpl. by rewrite app_nil_r.
    + change (step w {| session := s; pool := ts; trace := tr |} (Invoke OpInitialize)
                ≫= (fun cfg' => exec w cfg' (replicate n (Invoke OpInitialize))) = 
              Some {| session := s;
                      pool := ts ++ replicate (S n) (OpInitialize, TDone (Returned ValUnit));
                      trace := tr |}).
      unfold step. cbn [session pool trace] in *.
      rewrite initialize_noop_advance by (by rewrite Hb). cbn [mbind option_bind].
      rewrite IH by done. cbn [session pool trace replicate].
      by rewrite <- app_assoc.
  - intros acts cfg Hok Hexec.
    pose proof (concurrent_initialize_launches w acts cfg Hok Hexec). lia.
Qed.


(** C5. [isReady()] is [true] iff both handles are not [null], and it
    has no effect. It is [false] on a new service object and after a
    [close()] that returned. After any sequence of operations it is
    [true] exactly when a successful [initialize] (its last step, the
    user agent set, is in the trace) has not been followed by the
    shutdown of the browser. *)
Theorem isReady_lifecycle (w : World) :
  (forall s, isReady s = true <-> browser s <> None /\ page s <> None) /\
  (forall s tr, run w (op_prog OpIsReady) s tr = (Returned (ValBool (isReady s)), s, tr)) /\
  isReady constructor = false /\
  (forall s tr,
      (run w close s tr).1.1 = Returned tt ->
      isReady (run w close s tr).1.2 = false) /\
  (forall ops,
      let out := run_ops w ops constructor [] in
      isReady out.1 = true <->
      exists pre p ua v post,
        out.2 = pre ++ EvSettle (SetUserAgent p ua) (Fulfilled v) :: post /\
        Forall (fun e => is_shutdown e = false) post).
Proof.
  split; [|split; [done|split; [done|split]]].
  - intros [[b|] [p|] g]; unfold isReady; simpl; split; try done; intros [? ?]; done.
  - intros [[b|] p g] tr; simpl; [|done].
    destruct (w _ _) as [[]|e]; simpl; done.
  - intros ops out. subst out. rewrite <- lifecycle_true.
    by destruct (run_ops_settled w ops constructor [] boot_settled) as [_ ->].
Qed.


(** C7. An [initialize] that went past its guard clears the guard on
    every exit, and when one of its calls (the launch, the new page, the
    user agent) is rejected, it throws that very error and leaves both
    handles [null]; it throws nothing else. *)
Theorem initialize_failure_resets (w : World) (s : Session) :
  non_null (browser s) || isInitializing s = false ->
  let out := run w initialize s [] in
  isInitializing out.1.2 = false /\
  (forall c e, In (EvSettle c (Rejected e)) out.2 ->
     out.1.1 = Thrown e /\ browser out.1.2 = None /\ page out.1.2 = None) /\
  (forall e, out.1.1 = Thrown e ->
     (exists c, In (EvSettle c (Rejected e)) out.2) /\
     browser out.1.2 = None /\ page out.1.2 = None).
Proof.
  intros Hg out.
  pose proof (ensures_run disturbed _ s [] _ w (fun _ => I) (initialize_disturbed s Hg))
    as (Hguard & Hrej & Hthrown).
  split; [exact Hguard|]. split.
  - intros c e Hin. by apply In_rejection_of, Hrej in Hin.
  - intros e He. destruct (Hthrown e He) as (Hin & Hb & Hp).
    split; [by apply rejection_of_In|done].
Qed.

End SessionClaims.

(** ** Claims on the HTTP handlers and on the missing page *)

Section HandlerClaims.
Context `{Runtime}.

Lemma missing_falsy (o : gmap string JsValue) (k : string) :
  missing_or_empty o k -> truthy (prop o k) = false.
Proof. unfold prop. by intros [-> | ->]. Qed.

(** C8. A request to POST /api/consultar (fields read from the body)
    or to GET /api/consultar (fields read from the query string) in
    which [secao], [proc] or [uf] is missing or empty is answered with
    status 400 and [sucesso = false], and nothing else happens: the
    handler is the mere return of that response, so that no method of
    the service is called, the session is unchanged and no event is
    produced. *)
Theorem missing_field_rejected (req : Request) (w : World) (s : Session) (tr : list Event) :
  (missing_or_empty (body req) "secao" \/ missing_or_empty (body req) "proc" \/
   missing_or_empty (body req) "uf" ->
     post_consultar req = Ret bad_request /\
     run w (post_consultar req) s tr = (Returned bad_request, s, tr)) /\
  (missing_or_empty (query req) "secao" \/ missing_or_empty (query req) "proc" \/
   missing_or_empty (query req) "uf" ->
     get_consultar req = Ret bad_request /\
     run w (get_consultar req) s tr = (Returned bad_request, s, tr)) /\
  status bad_request = 400%nat /\ sucesso (payload bad_request) = false.
Proof.
  split; [|split; [|done]].
  - intros Hmiss.
    assert (post_consultar req = Ret bad_request) as ->; [|done].
    unfold post_consultar.
    assert (negb (truthy (prop (body req) "secao")) || negb (truthy (prop (body req) "proc"))
            || negb (truthy (prop (body req) "uf")) = true) as ->; [|done].
    destruct Hmiss as [Hm|[Hm|Hm]]; rewrite (missing_falsy _ _ Hm); simpl;
      by rewrite ?orb_true_r.
  - intros Hmiss.
    assert (get_consultar req = Ret bad_request) as ->; [|done].
    unfold get_consultar.
    assert (negb (truthy (prop (query req) "secao")) || negb (truthy (prop (query req) "proc"))
            || negb (truthy (prop (query req) "uf")) = true) as ->; [|done].
    destruct Hmiss as [Hm|[Hm|Hm]]; rewrite (missing_falsy _ _ Hm); simpl;
      by rewrite ?orb_true_r.
Qed.

(** C9. When the body of a POST and the query string of a GET carry
    the same three fields, the two handlers are the same program: they
    make the same calls, leave the same session and send the same
    response. *)
Theorem get_post_agree (post_req get_req : Request) (secao proc uf : JsValue) :
  body post_req !! "secao" = Some secao -> body post_req !! "proc" = Some proc ->
  body post_req !! "uf" = Some uf ->
  query get_req !! "secao" = Some secao -> query get_req !! "proc" = Some proc ->
  query get_req !! "uf" = Some uf ->
  post_consultar post_req = get_consultar get_req /\
  (forall w s tr, run w (post_consultar post_req) s tr = run w (get_consultar get_req) s tr) /\
  (forall s tr, advance (op_prog (OpPost post_req)) s tr = advance (op_prog (OpGet get_req)) s tr).
Proof.
  intros Hb1 Hb2 Hb3 Hq1 Hq2 Hq3.
  assert (post_consultar post_req = get_consultar get_req) as Heq.
  { unfold post_consultar, get_consultar, prop.
    by rewrite Hb1, Hb2, Hb3, Hq1, Hq2, Hq3. }
  split; [exact Heq|]. split.
  - intros. by rewrite Heq.
  - intros. unfold op_prog. by rewrite Heq.
Qed.

(** C10. If the page handle is still [null] once the lazy [initialize]
    of [consultarProcesso] has returned without throwing, then
    [consultarProcesso] returns the failure whose message contains "Falha
    ao inicializar a página", and its only event is the line written to
    the console: no method of the missing page is called. This is what
    happens when [initialize] returns at once because the guard is set or
    a browser exists: the task is suspended once, and, resumed in any
    session without a page, ends with that failure. *)
Theorem consultarProcesso_guards_null_page
  (w : World) (s : Session) (secao proc uf : JsValue) :
  let lazy :=
    if negb (non_null (browser s)) || negb (non_null (page s))
    then run w initialize s []
    else (Returned tt, s, []) in
  lazy.1.1 = Returned tt ->
  page lazy.1.2 = None ->
  run w (consultarProcesso secao proc uf) s [] =
    (Returned (failure falha_pagina), s, [consulta_error_line falha_pagina]) /\
  sucesso (failure falha_pagina) = false /\
  Substring (js "Falha ao inicializar a página") (mensagem (failure falha_pagina)) /\
  (non_null (browser s) || isInitializing s = true ->
   exists k,
     advance (op_prog (OpConsultar secao proc uf)) s [] = (TYield k, s, []) /\
     forall s1 tr1,
       page s1 = None ->
       advance k s1 tr1 =
         (TDone (Returned (ValResult (failure falha_pagina))), s1,
          tr1 ++ [consulta_error_line falha_pagina])).
Proof.
  intros lazy Hret Hpage. subst lazy.
  split; [|split; [done|split]].
  - revert Hret Hpage. destruct s as [[b|] [p|] [|]]; simpl; try done;
      repeat match goal with
             | |- context [w ?n ?c] => destruct (w n c); simpl
             end; done.
  - exists (js "Erro durante a consulta: "), []. by rewrite app_nil_r.
  - intros Hg. destruct s as [[b|] [p|] [|]]; simpl in *; try done.
    all: eexists; split; [reflexivity|].
    all: intros [b1 p1 g1] tr1 Hp1; simpl in *; subst p1; reflexivity.
Qed.
End HandlerClaims.

(** * Further properties *)

(** ** Runs of composed programs *)

Section RunAlgebra.

Lemma run_bind {A B} (w : World) (p : Prog A) (f : A -> Prog B) s tr :
  run w (p ≫= f) s tr =
  match run w p s tr with
  | (Returned a, s', tr') => run w (f a) s' tr'
  | (Thrown e, s', tr') => (Thrown e, s', tr')
  end.
Proof.
  unfold mbind, prog_bind. revert s tr.
  induction p as [a|e|k IH|s0 k IH|l k IH|k IH|c k IH]; intros s tr; simpl; eauto.
Qed.

Lemma run_try_catch {A} (w : World) (p : Prog A) (h : JsError -> Prog A) s tr :
  run w (try_catch p h) s tr =
  match run w p s tr with
  | (Returned a, s', tr') => (Returned a, s', tr')
  | (Thrown e, s', tr') => run w (h e) s' tr'
  end.
Proof.
  revert s tr.
  induction p as [a|e|k IH|s0 k IH|l k IH|k IH|c k IH]; intros s tr; simpl; eauto.
Qed.

Lemma run_await_async {A} (w : World) (p : Prog A) s tr :
  run w (await_async p) s tr = run w p s tr.
Proof.
  unfold await_async. revert s tr.
  induction p as [a|e|k IH|s0 k IH|l k IH|k IH|c k IH]; intros s tr; simpl; eauto.
Qed.

Lemma NoThrow_run {A} (w : World) (p : Prog A) s tr :
  NoThrow p -> exists a, (run w p s tr).1.1 = Returned a.
Proof.
  intros Hp.
  exact (ensures_run undisturbed p s tr _ w (fun _ => eq_refl) (NoThrow_ensures _ p s tr Hp)).
Qed.

End RunAlgebra.

(** ** The calls of a trace *)

Section CallsOfTrace.

Lemma calls_consoles ls : calls (EvConsole <$> ls) = [].
Proof. unfold calls. induction ls; simpl; done. Qed.

Lemma calls_app tr1 tr2 : calls (tr1 ++ tr2) = calls tr1 ++ calls tr2.
Proof. unfold calls. apply omap_app. Qed.

Lemma In_calls tr c : In c (calls tr) <-> In (EvCall c) tr.
Proof.
  unfold calls. rewrite <- !list_elem_of_In, list_elem_of_omap. split.
  - intros (ev & Hin & Hc). destruct ev; simpl in Hc; try done. by injection Hc as ->.
  - intros Hin. by exists (EvCall c).
Qed.

End CallsOfTrace.

(** ** The address of a query *)

Section Url.

Lemma split_at_ampersand (x x' r r' : jsstring) :
  ~ In ampersand x -> ~ In ampersand x' ->
  x ++ ampersand :: r = x' ++ ampersand :: r' -> x = x' /\ r = r'.
Proof.
  revert x'. induction x as [|c x IH]; intros [|c' x'] Hx Hx' Heq; simpl in *.
  - by injection Heq as ->.
  - injection Heq as <- _. tauto.
  - injection Heq as -> _. tauto.
  - injection Heq as -> Heq. destruct (IH x') as [-> ->]; tauto.
Qed.

Transparent js.
Lemma url_parts (secao proc uf : jsstring) :
  url (VStr secao) (VStr proc) (VStr uf) =
  js "https://processual.trf1.jus.br/consultaProcessual/processoExecucao/listar.php?secao="
  ++ secao ++ ampersand :: js "proc=" ++ proc ++ ampersand :: js "uf=" ++ uf.
Proof. reflexivity. Qed.
Opaque js.

(** X8: the address of a query determines its three fields, as long as
    the [secao] and [proc] given hold no "&": two queries for different
    processes never navigate to the same address. *)
Theorem url_determines_fields (secao proc uf secao' proc' uf' : jsstring) :
  ~ In ampersand secao -> ~ In ampersand proc ->
  ~ In ampersand secao' -> ~ In ampersand proc' ->
  url (VStr secao) (VStr proc) (VStr uf) = url (VStr secao') (VStr proc') (VStr uf') ->
  secao = secao' /\ proc = proc' /\ uf = uf'.
Proof.
  intros Hs Hp Hs' Hp'. rewrite !url_parts. intros Heq.
  apply app_inv_head in Heq.
  apply split_at_ampersand in Heq as [-> Heq]; [|done|done].
  apply app_inv_head in Heq.
  apply split_at_ampersand in Heq as [-> Heq]; [|done|done].
  by apply app_inv_head in Heq as ->.
Qed.

End Url.

(** ** initialize and close, one call *)

Section InitializeMore.

Lemma initialize_outcome (w : World) (s : Session) (tr : list Event) :
  non_null (browser s) || isInitializing s = false ->
  exists c s' suffix,
    run w initialize s tr = (c, s', tr ++ suffix) /\
    Forall (fun c => opens c = true) (calls suffix) /\
    ((c = Returned tt /\ exists b p,
        s' = {| browser := Some b; page := Some p; isInitializing := false |}) \/
     (exists e, c = Thrown e /\ s' = constructor /\
        In (Some e) (rejection_of <$> suffix))).
Proof.
  intros Hg. destruct s as [[b|] p [|]]; try done. clear Hg. simpl.
  repeat match goal with
         | |- context [w ?n ?c] => destruct (w n c) as [?|?]; simpl
         end.
  all: rewrite <- ?app_assoc; simpl.
  all: do 3 eexists; split; [reflexivity|]; split; [repeat constructor|].
  1: left; split; [by destruct v1|eauto].
  all: right; eexists; split; [reflexivity|]; split; [reflexivity|]; simpl; tauto.
Qed.



(** X2: an [initialize] that goes past its guard and returns has made
    exactly three calls, in this order: the launch with the options of
    the source, [newPage] on the browser launched, [setUserAgent] on that
    page; it has written its two lines to the console, and leaves the
    browser and the page stored and the guard cleared. *)
Theorem initialize_success_protocol (w : World) (s : Session) :
  non_null (browser s) || isInitializing s = false ->
  let out := run w initialize s [] in
  out.1.1 = Returned tt ->
  exists b p,
    out.1.2 = {| browser := Some b; page := Some p; isInitializing := false |} /\
    out.2 =
      [EvConsole (console_log (js "[TRF1Service] Inicializando navegador Puppeteer..."));
       EvCall (Launch launchOptions);
       EvSettle (Launch launchOptions) (Fulfilled b);
       EvCall (NewPage b);
       EvSettle (NewPage b) (Fulfilled p);
       EvCall (SetUserAgent p userAgent);
       EvSettle (SetUserAgent p userAgent) (Fulfilled tt);
       EvConsole (console_log (js "[TRF1Service] Navegador inicializado com sucesso!"))].
Proof.
  intros Hg. destruct s as [[b|] p [|]]; try done. clear Hg. simpl.
  repeat match goal with
         | |- context [w ?n ?c] => destruct (w n c) as [?|?]; simpl
         end; try done.
  intros _. destruct v1. eauto.
Qed.

(** X3: [initialize] never shuts a browser down. When it throws after
    the launch was fulfilled, the browser it launched is dropped from
    the session without having been closed. *)
Theorem initialize_never_shuts_down (w : World) (s : Session) :
  non_null (browser s) || isInitializing s = false ->
  let out := run w initialize s [] in
  Forall (fun c => is_close_call c = false) (calls out.2) /\
  forall b e,
    In (EvSettle (Launch launchOptions) (Fulfilled b)) out.2 ->
    out.1.1 = Thrown e ->
    browser out.1.2 = None /\ ~ In (EvCall (CloseBrowser b)) out.2.
Proof.
  intros Hg out.
  assert (Forall (fun c => is_close_call c = false) (calls out.2)) as Hno.
  { subst out. destruct s as [[b|] p [|]]; try done. simpl.
    repeat match goal with
           | |- context [w ?n ?c] => destruct (w n c) as [?|?]; simpl
           end; repeat constructor. }
  split; [exact Hno|]. intros b e _ Hthrown. split.
  - pose proof (ensures_run disturbed _ s [] _ w (fun _ => I) (initialize_disturbed s Hg))
      as (_ & _ & Hreset).
    by destruct (Hreset e Hthrown) as (_ & Hb & _).
  - intros Hin. apply In_calls, list_elem_of_In in Hin. rewrite Forall_forall in Hno.
    by specialize (Hno _ Hin).
Qed.


End InitializeMore.

Section CloseMore.

(** X1: when the shutdown of the browser is rejected, [close] throws
    that error and leaves the session as it was, both handles still
    stored: no line is written, and a later [close] asks the same
    browser to shut down again. *)
Theorem close_rejected_keeps_handles (w : World) (s : Session) (tr : list Event)
  (b : Browser) (e : JsError) :
  browser s = Some b ->
  w (length (tr ++ [EvCall (CloseBrowser b)])) (CloseBrowser b) = Rejected e ->
  run w close s tr =
    (Thrown e, s, (tr ++ [EvCall (CloseBrowser b)]) ++ [EvSettle (CloseBrowser b) (Rejected e)]) /\
  forall w' tr', exists rest,
    (run w' close s tr').2 = tr' ++ EvCall (CloseBrowser b) :: rest.
Proof.
  intros Hb Hw. destruct s as [b0 p g]; simpl in Hb; subst b0. split.
  - simpl. by rewrite Hw.
  - intros w' tr'. simpl. destruct (w' _ _) as [[]|e']; simpl;
      rewrite <- !app_assoc; simpl; eauto.
Qed.

End CloseMore.

(** ** consultarProcesso: what one call does to the browser *)

Section ConsultaMore.
Context `{Runtime}.

Ltac calls_of_leaf :=
  unfold calls; simpl;
  change (omap call_of) with calls; rewrite ?calls_consoles; simpl.

Lemma consultar_one_attempt secao proc uf s :
  ensures undisturbed (consultarProcesso secao proc uf) s []
    (fun _ _ tr => OneAttempt secao proc uf tr).
Proof.
  unfold consultarProcesso, initialize.
  exec.
  all: try (apply scan_ensures; simpl).
  all: unfold OneAttempt; calls_of_leaf.
  all: repeat split; try lia; try done.
  all: repeat match goal with
              | Hin : _ \/ _ |- _ => destruct Hin as [Hin|Hin]
              | Hin : False |- _ => destruct Hin
              | Hin : _ = Goto _ _ _ |- _ =>
                  first [discriminate Hin | injection Hin as <- <- <-]
              end; done.
Qed.

Lemma consultar_outcome secao proc uf s :
  ensures undisturbed (consultarProcesso secao proc uf) s [] (fun c _ tr => Outcome c tr).
Proof.
  unfold consultarProcesso, initialize.
  exec.
  all: try (apply scan_ensures; simpl).
  all: unfold Outcome; eexists; (split; [reflexivity|]).
  all: first [ right; eexists; reflexivity
             | left; eexists; split; [|reflexivity]; simpl; tauto ].
Qed.

Lemma scan_value_cases html kws b d :
  scan_value html kws = (b, d) ->
  (b = true /\ In d kws) \/ (b = false /\ d = []).
Proof.
  induction kws as [|k kws IH]; simpl.
  - intros [= <- <-]. by right.
  - destruct (includes _ _).
    + intros [= <- <-]. left. split; [done | by left].
    + intros Hrest. destruct (IH Hrest) as [[-> Hin]|[-> ->]]; [left|right]; split; auto.
Qed.

Lemma keywords_not_empty : Forall (fun k : jsstring => k <> []) palavrasChaveRPV.
Proof. vm_compute. repeat constructor; discriminate. Qed.

(** X4: one call of [consultarProcesso] navigates at most once and
    reads the page at most once (nothing is retried), launches at most
    one browser and never shuts one down; what it navigates to is the
    address built from its three arguments, with the options of the
    source. *)
Theorem consultarProcesso_single_attempt
  (w : World) (s : Session) (secao proc uf : JsValue) :
  let cs := calls (run w (consultarProcesso secao proc uf) s []).2 in
  (length (filter is_goto cs) <= 1)%nat /\
  (length (filter is_content cs) <= 1)%nat /\
  (length (filter is_launch_call cs) <= 1)%nat /\
  filter is_close_call cs = [] /\
  forall p u o, In (Goto p u o) cs -> u = url secao proc uf /\ o = gotoOptions.
Proof.
  exact (ensures_run undisturbed _ s [] _ w (fun _ => eq_refl)
           (consultar_one_attempt secao proc uf s)).
Qed.

(** X5: the shape of every result of [consultarProcesso]. With
    [sucesso: true], [temRPV] and [detalhes] are both present, [temRPV]
    is true exactly when [detalhes] is not empty, [detalhes] is empty or
    one of the keywords, and the message is built from them. With
    [sucesso: false], both fields are absent and the message is the
    prefix of the source followed by the message of an error. *)
Theorem consultarProcesso_result_shape
  (w : World) (s : Session) (secao proc uf : JsValue) :
  exists r,
    (run w (consultarProcesso secao proc uf) s []).1.1 = Returned r /\
    (sucesso r = true ->
       exists b d,
         temRPV r = Some b /\ detalhes r = Some d /\
         (b = true <-> d <> []) /\
         (d = [] \/ In d palavrasChaveRPV) /\
         mensagem r = (if b then js "RPV encontrada: " ++ d
                       else js "Página carregada, mas RPV não foi encontrada")) /\
    (sucesso r = false ->
       temRPV r = None /\ detalhes r = None /\
       exists e, mensagem r = js "Erro durante a consulta: " ++ message e).
Proof.
  destruct (ensures_run undisturbed _ s [] _ w (fun _ => eq_refl)
              (consultar_outcome secao proc uf s)) as (r & Hr & Hcases).
  exists r. split; [exact Hr|].
  destruct Hcases as [(html & _ & ->)|(e & ->)]; (split; [|done || by eauto]).
  - intros _. unfold found_result. simpl.
    destruct (scan_value html palavrasChaveRPV) as [b d] eqn:Hv. exists b, d. simpl.
    split; [done|]. split; [done|].
    destruct (scan_value_cases _ _ _ _ Hv) as [[-> Hin]|[-> ->]].
    + pose proof keywords_not_empty as Hne. rewrite Forall_forall in Hne.
      pose proof Hin as Hin'. apply list_elem_of_In in Hin'. specialize (Hne _ Hin').
      split; [by split|]. split; [by right | done].
    + split; [by split|]. split; [by left | done].
  - done.
Qed.


End ConsultaMore.

(** ** The routes of the server *)

Section RoutesProps.
Context `{Runtime}.

Lemma run_Ret {A} (w : World) (a : A) s tr : run w (Ret a) s tr = (Returned a, s, tr).
Proof. reflexivity. Qed.

Lemma run_get (w : World) s tr : run w get s tr = (Returned s, s, tr).
Proof. reflexivity. Qed.

Lemma consultar_returns (w : World) secao proc uf s tr :
  exists r, (run w (consultarProcesso secao proc uf) s tr).1.1 = Returned r.
Proof.
  apply NoThrow_run. unfold consultarProcesso. by apply NoThrow_try_catch.
Qed.

Lemma post_consultar_route req :
  post_consultar req =
  if fields_given (body req)
  then try_catch (consultar_route (prop (body req) "secao") (prop (body req) "proc")
                    (prop (body req) "uf"))
                 (fun error => Ret (server_error error))
  else Ret bad_request.
Proof.
  unfold fields_given, post_consultar.
  destruct (truthy (prop (body req) "secao")), (truthy (prop (body req) "proc")),
    (truthy (prop (body req) "uf")); done.
Qed.

Lemma get_consultar_route req :
  get_consultar req =
  if fields_given (query req)
  then try_catch (consultar_route (prop (query req) "secao") (prop (query req) "proc")
                    (prop (query req) "uf"))
                 (fun error => Ret (server_error error))
  else Ret bad_request.
Proof.
  unfold fields_given, get_consultar.
  destruct (truthy (prop (query req) "secao")), (truthy (prop (query req) "proc")),
    (truthy (prop (query req) "uf")); done.
Qed.

Lemma handler_consultar route fields :
  fields_of route = Some fields ->
  handler route =
  (r ← (if fields_given fields
        then try_catch (consultar_route (prop fields "secao") (prop fields "proc")
                          (prop fields "uf"))
                       (fun error => Ret (server_error error))
        else Ret bad_request);
   Ret (SentResponse r)).
Proof.
  destruct route as [| |req|req|]; intros [= <-]; unfold handler.
  - by rewrite post_consultar_route.
  - by rewrite get_consultar_route.
Qed.

(** The run of a handler of /api/consultar, in terms of the runs of the
    two methods it calls. *)
Lemma consultar_route_run (w : World) route fields s tr :
  fields_of route = Some fields ->
  run w (handler route) s tr =
  if fields_given fields
  then
    match (if isReady s then (Returned tt, s, tr) else run w initialize s tr) with
    | (Thrown e, s1, tr1) => (Returned (SentResponse (server_error e)), s1, tr1)
    | (Returned _, s1, tr1) =>
        match run w (consultarProcesso (prop fields "secao") (prop fields "proc")
                       (prop fields "uf")) s1 tr1 with
        | (Returned r, s2, tr2) =>
            (Returned (SentResponse {| status := 200; payload := r |}), s2, tr2)
        | (Thrown e, s2, tr2) => (Returned (SentResponse (server_error e)), s2, tr2)
        end
    end
  else (Returned (SentResponse bad_request), s, tr).
Proof.
  intros Hf. rewrite (handler_consultar _ _ Hf). rewrite run_bind.
  destruct (fields_given fields); [|done].
  unfold consultar_route. rewrite run_try_catch, run_bind, run_get. cbv beta iota.
  rewrite run_bind. destruct (isReady s); cbn [negb].
  - rewrite run_Ret. cbv beta iota. rewrite run_bind, run_await_async.
    by destruct (run w (consultarProcesso _ _ _) s tr) as [[[r|e] s2] tr2].
  - rewrite run_await_async. destruct (run w initialize s tr) as [[[[]|e] s1] tr1]; [|done].
    rewrite run_bind, run_await_async.
    by destruct (run w (consultarProcesso _ _ _) s1 tr1) as [[[r|e] s2] tr2].
Qed.

(** X9: both handlers of /api/consultar always send a response: its
    status is 400, 200 or 500; it is 400 exactly when one of the three
    fields is missing or falsy; and unless it is 200 the body says
    [sucesso: false]. *)
Theorem consultar_routes_answer
  (w : World) (route : Route) (fields : gmap string JsValue) (s : Session) (tr : list Event) :
  fields_of route = Some fields ->
  Answer fields (run w (handler route) s tr).1.1.
Proof.
  intros Hf. rewrite (consultar_route_run w _ _ s tr Hf). unfold Answer.
  destruct (fields_given fields) eqn:Hg.
  - destruct (if isReady s then _ else _) as [[[[]|e] s1] tr1].
    + destruct (consultar_returns w (prop fields "secao") (prop fields "proc")
                  (prop fields "uf") s1 tr1) as (r & Hr).
      destruct (run w (consultarProcesso _ _ _) s1 tr1) as [[c s2] tr2].
      simpl in Hr. subst c. eexists. split; [reflexivity|]. simpl.
      repeat split; auto; done.
    + eexists. split; [reflexivity|]. simpl. repeat split; auto; done.
  - eexists. split; [reflexivity|]. simpl. repeat split; auto; done.
Qed.

(** X10: when the service is ready and the fields are given, a handler
    of /api/consultar sends, with status 200, the very result of
    [consultarProcesso] for the three fields, and leaves the session and
    the trace that call leaves: a consultation that failed is sent with
    status 200 too. *)
Theorem consultar_route_when_ready
  (w : World) (route : Route) (fields : gmap string JsValue) (s : Session) (tr : list Event) :
  fields_of route = Some fields ->
  fields_given fields = true ->
  isReady s = true ->
  exists r s' tr',
    run w (consultarProcesso (prop fields "secao") (prop fields "proc") (prop fields "uf")) s tr
      = (Returned r, s', tr') /\
    run w (handler route) s tr
      = (Returned (SentResponse {| status := 200; payload := r |}), s', tr').
Proof.
  intros Hf Hg Hr. rewrite (consultar_route_run w _ _ s tr Hf), Hg, Hr.
  destruct (consultar_returns w (prop fields "secao") (prop fields "proc")
              (prop fields "uf") s tr) as (r & Hret).
  destruct (run w (consultarProcesso _ _ _) s tr) as [[c s'] tr'].
  simpl in Hret. subst c. by exists r, s', tr'.
Qed.

(** X11: a handler of /api/consultar sends status 500 only when the
    service was not ready and the [initialize] it called threw: the body
    then carries that error's message, the session is the one of a new
    service, and no navigation was attempted. Conversely, such a failure
    of [initialize] is always sent with status 500. *)
Theorem consultar_route_server_error
  (w : World) (route : Route) (fields : gmap string JsValue) (s : Session) (tr : list Event) :
  fields_of route = Some fields ->
  let out := run w (handler route) s tr in
  (forall r, out.1.1 = Returned (SentResponse r) -> status r = 500%nat ->
     fields_given fields = true /\ isReady s = false /\
     exists e,
       run w initialize s tr = (Thrown e, out.1.2, out.2) /\
       r = server_error e /\
       out.1.2 = constructor /\
       forall p u o, In (Goto p u o) (calls out.2) -> In (Goto p u o) (calls tr)) /\
  (forall e,
     fields_given fields = true -> isReady s = false ->
     (run w initialize s tr).1.1 = Thrown e ->
     out.1.1 = Returned (SentResponse (server_error e))).
Proof.
  intros Hf out. subst out. rewrite (consultar_route_run w _ _ s tr Hf). split.
  - intros r. destruct (fields_given fields); [|by intros [= <-]].
    destruct (isReady s).
    + destruct (consultar_returns w (prop fields "secao") (prop fields "proc")
                  (prop fields "uf") s tr) as (r0 & Hret).
      destruct (run w (consultarProcesso _ _ _) s tr) as [[c s'] tr'].
      simpl in Hret. subst c. by intros [= <-].
    + destruct (non_null (browser s) || isInitializing s) eqn:Hguard.
      { rewrite (initialize_noop_run w s tr Hguard).
        destruct (consultar_returns w (prop fields "secao") (prop fields "proc")
                    (prop fields "uf") s tr) as (r0 & Hret).
        destruct (run w (consultarProcesso _ _ _) s tr) as [[c s'] tr'].
        simpl in Hret. subst c. by intros [= <-]. }
      destruct (initialize_outcome w s tr Hguard) as (c & s' & suffix & -> & Hopens & Hc).
      destruct Hc as [[-> _]|(e & -> & -> & _)].
      { destruct (consultar_returns w (prop fields "secao") (prop fields "proc")
                    (prop fields "uf") s' (tr ++ suffix)) as (r0 & Hret).
        destruct (run w (consultarProcesso _ _ _) s' (tr ++ suffix)) as [[c s2] tr2].
        simpl in Hret. subst c. by intros [= <-]. }
      simpl. intros [= <-] _. repeat split. exists e. repeat split.
      intros p u o. rewrite calls_app. intros Hin. apply in_app_or in Hin as [Hin|Hin]; [done|].
      rewrite Forall_forall in Hopens. apply list_elem_of_In in Hin.
      by specialize (Hopens _ Hin).
  - intros e -> -> Hthrown.
    destruct (run w initialize s tr) as [[[[]|e'] s1] tr1]; simpl in Hthrown; [done|].
    by injection Hthrown as ->.
Qed.

(** X20: a request to /api/consultar that arrives while an [initialize]
    is under way and no page is stored yet, and during which nothing
    else runs, is answered without any call to the browser: both calls
    of [initialize] return at the guard, and the response is 200 with
    the failure "Falha ao inicializar a página", the session left as it
    was. *)
Theorem consultar_route_during_initialization
  (w : World) (route : Route) (fields : gmap string JsValue) (s : Session) (tr : list Event) :
  fields_of route = Some fields ->
  fields_given fields = true ->
  isInitializing s = true ->
  page s = None ->
  run w (handler route) s tr =
    (Returned (SentResponse {| status := 200; payload := failure falha_pagina |}),
     s, tr ++ [consulta_error_line falha_pagina]).
Proof.
  intros Hf Hg Hi Hp. rewrite (consultar_route_run w _ _ s tr Hf), Hg.
  destruct s as [b p g]. simpl in Hi, Hp. subst g p.
  replace (isReady _) with false by (unfold isReady; simpl; by rewrite andb_false_r).
  rewrite initialize_noop_run by (simpl; apply orb_true_r).
  by destruct b.
Qed.

Lemma post_inicializar_run (w : World) s tr :
  run w post_inicializar s tr =
  match run w initialize s tr with
  | (Returned _, s', tr') => (Returned inicializado, s', tr')
  | (Thrown e, s', tr') => (Returned (erro_ao_inicializar e), s', tr')
  end.
Proof.
  unfold post_inicializar. rewrite run_try_catch, run_bind, run_await_async.
  by destruct (run w initialize s tr) as [[[[]|e] s'] tr'].
Qed.

Lemma post_fechar_run (w : World) s tr :
  run w post_fechar s tr =
  match run w close s tr with
  | (Returned _, s', tr') => (Returned fechado, s', tr')
  | (Thrown e, s', tr') => (Returned (erro_ao_fechar e), s', tr')
  end.
Proof.
  unfold post_fechar. rewrite run_try_catch, run_bind, run_await_async.
  by destruct (run w close s tr) as [[[[]|e] s'] tr'].
Qed.

Lemma close_cases (w : World) s tr :
  (browser s = None /\ run w close s tr = (Returned tt, s, tr)) \/
  (exists b, browser s = Some b /\
     run w close s tr =
       (Returned tt, {| browser := None; page := None; isInitializing := isInitializing s |},
        tr ++ [EvCall (CloseBrowser b); EvSettle (CloseBrowser b) (Fulfilled tt);
               EvConsole (console_log (js "[TRF1Service] Navegador fechado"))])) \/
  (exists b e, browser s = Some b /\
     w (length (tr ++ [EvCall (CloseBrowser b)])) (CloseBrowser b) = Rejected e /\
     run w close s tr =
       (Thrown e, s, tr ++ [EvCall (CloseBrowser b); EvSettle (CloseBrowser b) (Rejected e)])).
Proof.
  destruct s as [[b|] p g]; simpl.
  - right. destruct (w _ (CloseBrowser b)) as [[]|e] eqn:Hw; simpl; rewrite <- !app_assoc; simpl.
    + left. by exists b.
    + right. by exists b, e.
  - by left.
Qed.

(** X12: POST /api/inicializar leaves the session and the trace that
    [initialize] leaves, and sends 200 when it returned, 500 with the
    error's message when it threw. While another [initialize] is under
    way it sends 200 without doing anything; on an idle session a 200
    means that the service is ready. *)
Theorem post_inicializar_reports (w : World) (s : Session) (tr : list Event) :
  let out := run w post_inicializar s tr in
  let init := run w initialize s tr in
  out.1.2 = init.1.2 /\ out.2 = init.2 /\
  ((out.1.1 = Returned inicializado /\ init.1.1 = Returned tt) \/
   (exists e, out.1.1 = Returned (erro_ao_inicializar e) /\ init.1.1 = Thrown e /\
              out.1.2 = constructor)) /\
  (isInitializing s = true -> out = (Returned inicializado, s, tr)) /\
  (idle s -> out.1.1 = Returned inicializado -> isReady out.1.2 = true).
Proof.
  intros out init. subst out init. rewrite post_inicializar_run.
  destruct (non_null (browser s) || isInitializing s) eqn:Hg.
  - rewrite (initialize_noop_run w s tr Hg). simpl. repeat split; auto.
    intros [Hi Hbp] _. rewrite Hi, orb_false_r in Hg. unfold isReady. rewrite Hg. simpl.
    destruct s as [b [p|] g]; [done|]. simpl in *. destruct Hbp as [_ Hbp].
    by rewrite (Hbp eq_refl) in Hg.
  - destruct (initialize_outcome w s tr Hg) as (c & s' & suffix & -> & _ & Hc).
    destruct Hc as [[-> (b & p & ->)]|(e & -> & -> & _)]; simpl.
    + repeat split; auto. intros Hi. by rewrite Hi, orb_true_r in Hg.
    + repeat split; eauto.
      * intros Hi. by rewrite Hi, orb_true_r in Hg.
      * done.
Qed.

(** X13: POST /api/fechar sends 200 with the service not ready (and
    nothing done when there was no browser), or, when the shutdown of
    the browser was rejected, 500 with the session left as it was. *)
Theorem post_fechar_reports (w : World) (s : Session) (tr : list Event) :
  let out := run w post_fechar s tr in
  (out.1.1 = Returned fechado /\ browser out.1.2 = None /\ isReady out.1.2 = false /\
   (browser s <> None -> page out.1.2 = None) /\
   (browser s = None -> out.1.2 = s /\ out.2 = tr)) \/
  (exists b e,
     browser s = Some b /\
     In (EvSettle (CloseBrowser b) (Rejected e)) out.2 /\
     out.1.1 = Returned (erro_ao_fechar e) /\ out.1.2 = s).
Proof.
  intros out. subst out. rewrite post_fechar_run.
  destruct (close_cases w s tr) as [[Hb ->]|[(b & Hb & ->)|(b & e & Hb & Hw & ->)]]; simpl.
  - left. unfold isReady. rewrite Hb. done.
  - left. rewrite Hb. done.
  - right. exists b, e. repeat split; auto. apply in_or_app. right. simpl. tauto.
Qed.

(** X14: on SIGINT the handler first writes its line; [process.exit(0)]
    is reached only after [close] has returned, with no browser stored;
    when the shutdown of the browser is rejected, the handler ends with
    that rejection, the session unchanged, and never calls
    [process.exit]. *)
Theorem sigint_exits_after_close (w : World) (s : Session) (tr : list Event) :
  let out := run w sigint s tr in
  (exists rest,
     out.2 = tr ++ EvConsole (console_log (10 :: js "[API] Encerrando servidor...")) :: rest) /\
  ((out.1.1 = Returned 0%Z /\ browser out.1.2 = None) \/
   (exists b e,
      browser s = Some b /\
      In (EvSettle (CloseBrowser b) (Rejected e)) out.2 /\
      out.1.1 = Thrown e /\ out.1.2 = s)).
Proof.
  intros out. subst out. unfold sigint.
  rewrite run_bind. change (run w (console ?l) s tr) with (@Returned unit tt, s, tr ++ [EvConsole l]).
  cbv beta iota. rewrite run_bind, run_await_async.
  destruct (close_cases w s (tr ++ [EvConsole (console_log (10 :: js "[API] Encerrando servidor..."))]))
    as [[Hb ->]|[(b & Hb & ->)|(b & e & Hb & Hw & ->)]]; simpl; rewrite <- ?app_assoc; simpl.
  - split; [by eexists|]. by left.
  - split; [by eexists|]. by left.
  - split; [by eexists|]. right. exists b, e. repeat split; auto.
    apply in_or_app. right. simpl. tauto.
Qed.

Lemma post_inicializar_settles : Settles post_inicializar.
Proof.
  unfold post_inicializar. apply Settles_try_catch; [|intros; apply Settles_Ret].
  apply Settles_bind; [apply Settles_await_async, initialize_settles|].
  intros; apply Settles_Ret.
Qed.

Lemma post_fechar_settles : Settles post_fechar.
Proof.
  unfold post_fechar. apply Settles_try_catch; [|intros; apply Settles_Ret].
  apply Settles_bind; [apply Settles_await_async, close_settles|].
  intros; apply Settles_Ret.
Qed.

Lemma handler_settles r : Settles (handler r).
Proof.
  destruct r; unfold handler; (apply Settles_bind; [|intros; apply Settles_Ret]).
  - unfold get_status. apply Settles_bind; [apply Settles_get|]. intros s.
    apply Settles_bind; [apply Settles_get|]. intros; apply Settles_Ret.
  - apply post_inicializar_settles.
  - apply post_consultar_settles.
  - apply get_consultar_settles.
  - apply post_fechar_settles.
Qed.

Lemma handler_NoThrow r : NoThrow (handler r).
Proof.
  destruct r; unfold handler; (apply NoThrow_bind; [|done]).
  - done.
  - unfold post_inicializar. by apply NoThrow_try_catch.
  - unfold post_consultar. by apply NoThrow_try_catch.
  - unfold get_consultar. by apply NoThrow_try_catch.
  - unfold post_fechar. by apply NoThrow_try_catch.
Qed.

Lemma get_status_run (w : World) s tr :
  run w (handler GetStatus) s tr =
  (Returned (SentStatus {| Status.pronto := isReady s;
                           Status.mensagem := ready_message (isReady s) |}), s, tr).
Proof. reflexivity. Qed.

(** X15: requests served one after the other, from a settled session:
    every handler sends something (none throws), the session stays idle,
    and what GET /api/status then reports is the readiness the trace
    tells, with the matching message. *)
Theorem serve_settled (w : World) (routes : list Route) (s : Session) (tr : list Event) :
  Settled_down s tr ->
  let out := serve w routes s tr in
  length out.1.1 = length routes /\
  Forall (fun c => returned c = true) out.1.1 /\
  Settled_down out.1.2 out.2 /\
  run w (handler GetStatus) out.1.2 out.2 =
    (Returned (SentStatus {| Status.pronto := lifecycle out.2;
                             Status.mensagem := ready_message (lifecycle out.2) |}),
     out.1.2, out.2).
Proof.
  revert s tr. induction routes as [|r routes IH]; intros s tr Hs.
  - cbn [serve fst snd]. rewrite get_status_run.
    repeat split; try done; try apply Hs. by destruct Hs as [_ ->].
  - cbn [serve].
    pose proof (ensures_run undisturbed _ s tr _ w (fun _ => eq_refl) (handler_settles r s tr Hs))
      as Hset.
    destruct (NoThrow_run w (handler r) s tr (handler_NoThrow r)) as (a & Ha).
    destruct (run w (handler r) s tr) as [[c s'] tr']. simpl in Hset, Ha. subst c.
    specialize (IH s' tr' Hset). simpl in IH.
    destruct (serve w routes s' tr') as [[cs s''] tr'']. simpl in *.
    destruct IH as (Hlen & Hall & Hset' & Hst). repeat split; auto; try apply Hset'.
Qed.

End RoutesProps.


(** ** The event loop: which tasks can reject *)

Section MachineMore.
Context `{Runtime}.

Lemma NoThrow_op op :
  op <> OpInitialize -> op <> OpClose -> NoThrow (op_prog op).
Proof.
  intros Hi Hc. destruct op as [|secao proc uf| | |req|req]; try done.
  - apply NoThrow_consultarProcesso.
  - change (NoThrow (bind (post_consultar req) (fun r => Ret (ValResponse r)))).
    apply NoThrow_bind; [|done]. unfold post_consultar. by apply NoThrow_try_catch.
  - change (NoThrow (bind (get_consultar req) (fun r => Ret (ValResponse r)))).
    apply NoThrow_bind; [|done]. unfold get_consultar. by apply NoThrow_try_catch.
Qed.

Lemma safe_pool_step w cfg a cfg' :
  safe_pool cfg -> step w cfg a = Some cfg' -> safe_pool cfg'.
Proof.
  intros Hsafe Hstep. destruct a as [op|i]; simpl in Hstep.
  - destruct (advance (op_prog op) (session cfg) (trace cfg)) as [[t s] tr] eqn:Hadv.
    injection Hstep as <-. intros j op' t' Hj Hni Hnc; simpl in Hj.
    apply lookup_app_Some in Hj as [Hj|[_ Hj]]; [by eapply Hsafe|].
    apply list_lookup_singleton_Some in Hj as [_ [= -> ->]].
    pose proof (advance_NoThrow _ (session cfg) (trace cfg) (NoThrow_op op' Hni Hnc)) as Hnt.
    by rewrite Hadv in Hnt.
  - destruct (pool cfg !! i) as [[op t]|] eqn:Hi; simpl in Hstep; [|done].
    destruct (resume w t (session cfg) (trace cfg)) as [[[t1 s1] tr1]|] eqn:Hres;
      simpl in Hstep; [|done].
    injection Hstep as <-. intros j op' t' Hj Hni Hnc; simpl in Hj.
    destruct (decide (i = j)) as [->|Hne].
    + rewrite list_lookup_insert_eq in Hj by (by eapply lookup_lt_Some).
      injection Hj as -> ->.
      specialize (Hsafe _ _ _ Hi Hni Hnc).
      destruct t as [c k|k|r]; simpl in Hres; [| |done].
      * injection Hres as Hres.
        pose proof (advance_NoThrow (k (w (length (trace cfg)) c)) (session cfg)
                      (trace cfg ++ [EvSettle c (w (length (trace cfg)) c)]) (Hsafe _)) as Hnt.
        by rewrite Hres in Hnt.
      * injection Hres as Hres.
        pose proof (advance_NoThrow k (session cfg) (trace cfg) Hsafe) as Hnt.
        by rewrite Hres in Hnt.
    + rewrite list_lookup_insert_ne in Hj by done. by eapply Hsafe.
Qed.

(** X16: however the calls of the service and of the two handlers of
    /api/consultar are interleaved, the only tasks that can end by
    throwing are those of [initialize] and [close]: no handler and no
    [consultarProcesso] leaves a rejection behind. *)
Theorem only_initialize_and_close_reject
  (w : World) (acts : list Action) (cfg : Config) (i : nat) (op : Op) (e : JsError) :
  exec w boot acts = Some cfg ->
  pool cfg !! i = Some (op, TDone (Thrown e)) ->
  op = OpInitialize \/ op = OpClose.
Proof.
  intros Hexec Hi.
  assert (safe_pool cfg) as Hsafe.
  { eapply (exec_invariant safe_pool); [apply safe_pool_step| |exact Hexec].
    intros j ? ? Hj. simpl in Hj. by rewrite lookup_nil in Hj. }
  destruct op; auto; exfalso; by apply (Hsafe _ _ _ Hi).
Qed.

(** The race of a cold start: a query posted while the launch of the
    browser is awaited finds the guard set at both of its calls of
    [initialize], and is answered with a failure before the browser is
    there. *)
Remark cold_start_race (w : World) (req : Request) :
  fields_given (body req) = true ->
  exists cfg,
    exec w boot [Invoke OpInitialize; Invoke (OpPost req); Resume 1; Resume 1; Resume 1]
      = Some cfg /\
    session cfg = launching_session /\
    pool cfg !! 1%nat =
      Some (OpPost req,
            TDone (Returned (ValResponse {| status := 200;
                                            payload := failure falha_pagina |}))).
Proof.
  intros Hg. unfold exec, step, op_prog. rewrite post_consultar_route, Hg.
  simpl. eexists. by repeat split.
Qed.

End MachineMore.

(** ** The variant for Vercel *)

Section VercelProps.
Context (env : Vercel.Env) `{Runtime}.

Ltac replies w :=
  repeat match goal with
         | |- context [w ?n ?c] => destruct (w n c) as [?|?]; simpl
         end.

Lemma vercel_scan_value html kws : Vercel.scan html kws = scan_value html kws.
Proof. induction kws as [|k kws IH]; simpl; [done|]. by rewrite IH. Qed.

Lemma on_request_blocked t : Vercel.on_request t = Vercel.Abort <-> In t Vercel.blocked.
Proof.
  unfold Vercel.on_request. change [js "image"; js "stylesheet"; js "font"; js "media"]
    with Vercel.blocked. rewrite <- list_elem_of_In. by case_bool_decide.
Qed.

(** X17: the [initialize] of the variant for Vercel, past its guard.
    Either it returns, having launched the browser, opened a page, set
    its user agent and its viewport and switched request interception
    on, in this order, and registered one listener of "request" events
    on that page; or it throws the error of the call that was rejected,
    whichever of the five it is, with the session reset, no listener
    registered and no browser shut down. The listener aborts exactly the
    requests for images, stylesheets, fonts and media. *)
Theorem vercel_initialize_outcome (w : Vercel.World) (s : Session) :
  non_null (browser s) || isInitializing s = false ->
  let out := Vercel.run w (Vercel.initialize env) s [] in
  ((out.1.1 = Returned tt /\
    exists b p,
      out.1.2 = {| browser := Some b; page := Some p; isInitializing := false |} /\
      Vercel.calls out.2 =
        [Vercel.Launch (Vercel.launchOptions env); Vercel.NewPage b;
         Vercel.SetUserAgent p userAgent; Vercel.SetViewport p Vercel.viewport;
         Vercel.SetRequestInterception p true] /\
      Vercel.listeners out.2 = [(p, js "request", Vercel.on_request)]) \/
   (exists e,
      out.1.1 = Thrown e /\ out.1.2 = constructor /\
      In (Some e) (Vercel.rejection_of <$> out.2) /\
      Vercel.listeners out.2 = [] /\
      Forall (fun c => Vercel.is_close_call c = false) (Vercel.calls out.2))) /\
  (forall t, Vercel.on_request t = Vercel.Abort <-> In t Vercel.blocked).
Proof.
  intros Hg out. split; [|apply on_request_blocked]. subst out.
  destruct s as [[b|] p [|]]; try done. clear Hg. simpl. replies w.
  1: left; split; [by repeat match goal with v : unit |- _ => destruct v end|];
     do 2 eexists; repeat split.
  all: right; eexists; split; [reflexivity|]; split; [reflexivity|];
    split; [simpl; tauto|]; split; [reflexivity|repeat constructor].
Qed.

(** X18: the [consultarProcesso] of the variant for Vercel, run alone
    from any session, always returns a result (it never throws). The
    wait for the selector is only a delay: once it has been started the
    text of the page is read whatever its outcome, and a text that was
    read always gives the result of the keyword scan. *)
Theorem vercel_selector_wait_tolerated
  (w : Vercel.World) (s : Session) (secao proc uf : JsValue) :
  let out := Vercel.run w (Vercel.consultarProcesso env secao proc uf) s [] in
  exists r,
    out.1.1 = Returned r /\
    (forall html, In (Some html) (Vercel.content_of <$> out.2) -> r = found_result html) /\
    (forall p sel o,
       In (Vercel.WaitForSelector p sel o) (Vercel.calls out.2) ->
       In (Vercel.Content p) (Vercel.calls out.2)) /\
    (sucesso r = false -> exists e, r = failure e).
Proof.
  destruct s as [[b|] [p|] [|]]; simpl; replies w.
  all: eexists; (split; [reflexivity|]).
  all: (split; [intros html Hin; simpl in Hin|split; [intros p' sel o Hin; simpl in Hin|]]).
  all: repeat match goal with
              | Hin : _ \/ _ |- _ => destruct Hin as [Hin|Hin]
              | Hin : False |- _ => destruct Hin
              | Hin : None = Some _ |- _ => discriminate Hin
              | Hin : Some _ = Some _ |- _ => injection Hin as Hin; subst
              | Hin : _ = Vercel.WaitForSelector _ _ _ |- _ =>
                  first [discriminate Hin | injection Hin as <- <- <-]
              end.
  all: try (unfold found_result; rewrite vercel_scan_value; reflexivity).
  all: try (simpl; tauto).
  all: try (intros _; eexists; reflexivity).
  all: try (intros Hs; discriminate Hs).
Qed.

(** X19: on a session with a browser and a page, the two variants of
    [consultarProcesso] return the same result and leave the session
    as it was, when the navigation and the reading of the page settle
    the same way for both, whatever the wait for the selector does. *)
Theorem vercel_agrees_on_open_session
  (w : World) (w' : Vercel.World) (secao proc uf : JsValue)
  (b : Browser) (p : Page) (g : bool) (nav : Settled unit) (text : Settled jsstring) :
  (forall n, w n (Goto p (url secao proc uf) gotoOptions) = nav) ->
  (forall n, w n (Content p) = text) ->
  (forall n, w' n (Vercel.Goto p (url secao proc uf) gotoOptions) = nav) ->
  (forall n, w' n (Vercel.Content p) = text) ->
  let s := {| browser := Some b; page := Some p; isInitializing := g |} in
  let primary := run w (consultarProcesso secao proc uf) s [] in
  let variant := Vercel.run w' (Vercel.consultarProcesso env secao proc uf) s [] in
  variant.1.1 = primary.1.1 /\ variant.1.2 = s /\ primary.1.2 = s.
Proof.
  intros Hnav Htext Hnav' Htext' s primary variant. subst s primary variant.
  unfold consultarProcesso. simpl. rewrite Hnav, Hnav'.
  destruct nav as [[]|e]; simpl; [|done].
  rewrite Htext. destruct (w' _ (Vercel.WaitForSelector _ _ _)) as [[]|e]; simpl;
    rewrite Htext'; destruct text as [html|e']; simpl; try done.
  all: rewrite scan_consoles.
  all: change (consoles ?ls ?k ≫= ?f) with (bind (consoles ls k) f).
  all: rewrite bind_consoles, try_catch_consoles, run_consoles; simpl.
  all: by rewrite vercel_scan_value.
Qed.

End VercelProps.

(** ** The claims at concrete inputs *)

Transparent js scan palavrasChaveRPV TypeError Error.

Ltac in_list := vm_compute; repeat first [left; reflexivity | right].

Lemma consultarProcesso_scans_keywords_witness :
  exists r,
    (run (world_ok html_precatorio) (consultarProcesso trf1 processo bahia) constructor []).1.1
      = Returned r /\
    sucesso r = true /\
    temRPV r = Some true /\
    detalhes r = Some (js "precatório").
Proof.
  destruct (consultarProcesso_scans_keywords (world_ok html_precatorio) constructor
              trf1 processo bahia) as (_ & _ & Hworld).
  destruct (Hworld html_precatorio) as (r & Hr & Hs & _ & Htem & Hdet).
  - intros n c. destruct c; eexists; reflexivity.
  - reflexivity.
  - right. split; reflexivity.
  - assert (FirstMatch html_precatorio palavrasChaveRPV (js "precatório")) as Hfirst
      by (apply scan_value_found; vm_compute; reflexivity).
    exists r. split; [exact Hr|]. split; [exact Hs|]. split.
    + apply Htem. exact (FirstMatch_Exists _ _ _ Hfirst).
    + destruct Hdet as [(kw & Hkw & ->)|[Hnone _]].
      * f_equal. exact (FirstMatch_unique _ _ _ _ Hkw Hfirst).
      * destruct (no_match_not_Exists _ _ Hnone (FirstMatch_Exists _ _ _ Hfirst)).
Defined.

Lemma consultarProcesso_never_throws_witness :
  exists r,
    (run world_timeout (consultarProcesso trf1 processo bahia) constructor []).1.1 = Returned r /\
    sucesso r = false /\
    mensagem r = js "Erro durante a consulta: " ++ message timeout_error.
Proof.
  destruct (consultarProcesso_never_throws world_timeout constructor trf1 processo bahia)
    as ((r & Hr & Hrej & _) & _).
  exists r. split; [exact Hr|].
  destruct (Hrej (Goto (PageHandle 1) (url trf1 processo bahia) gotoOptions) timeout_error)
    as (Hs & Hm & _); [in_list|].
  split; [exact Hs | exact Hm].
Defined.

Lemma initialize_idempotent_witness :
  exists cfg,
    exec (world_ok []) boot two_initializes = Some cfg /\
    (launches (trace cfg) <= 1)%nat.
Proof.
  destruct (initialize_idempotent (world_ok [])) as (_ & _ & _ & Hrace).
  destruct (exec (world_ok []) boot two_initializes) as [cfg|] eqn:Hexec;
    [|vm_compute in Hexec; discriminate Hexec].
  exists cfg. split; [reflexivity|].
  apply (Hrace two_initializes cfg eq_refl Hexec).
  vm_compute in Hexec. injection Hexec as <-. reflexivity.
Defined.



Lemma isReady_lifecycle_witness :
  isReady (run (world_ok []) close open_session []).1.2 = false.
Proof.
  destruct (isReady_lifecycle (world_ok [])) as (_ & _ & _ & Hclose & _).
  apply Hclose. reflexivity.
Defined.

(** C5 as it is stated fails inside an [initialize]: called while
    [initialize] awaits [setUserAgent], [isReady()] answers [true],
    though no [initialize] has succeeded; this one then throws, and none
    ever succeeds. *)
Lemma isReady_lifecycle_counterexample :
  exists cfg cfg',
    exec world_no_user_agent boot ready_inside_initialize = Some cfg /\
    pool cfg !! 1%nat = Some (OpIsReady, TDone (Returned (ValBool true))) /\
    (exists k, pool cfg !! 0%nat =
                 Some (OpInitialize, TAwait (SetUserAgent (PageHandle 1) userAgent) k)) /\
    lifecycle (trace cfg) = false /\
    exec world_no_user_agent cfg [Resume 0] = Some cfg' /\
    pool cfg' !! 0%nat = Some (OpInitialize, TDone (Thrown user_agent_error)) /\
    isReady (session cfg') = false.
Proof.
  do 2 eexists. split; [vm_compute; reflexivity|]. split; [reflexivity|].
  split; [eexists; reflexivity|]. split; [vm_compute; reflexivity|].
  split; [vm_compute; reflexivity|]. split; reflexivity.
Qed.


Lemma initialize_failure_resets_witness :
  let out := run world_no_browser initialize constructor [] in
  out.1.1 = Thrown launch_error /\ browser out.1.2 = None /\ page out.1.2 = None /\
  isInitializing out.1.2 = false.
Proof.
  destruct (initialize_failure_resets world_no_browser constructor eq_refl)
    as (Hguard & Hrej & _).
  destruct (Hrej (Launch launchOptions) launch_error) as (Hc & Hb & Hp); [in_list|].
  repeat split; assumption.
Defined.

Lemma missing_field_rejected_witness :
  run (world_ok []) (post_consultar {| body := no_uf_fields; query := no_uf_fields |})
      constructor [] = (Returned bad_request, constructor, []) /\
  run (world_ok []) (get_consultar {| body := no_uf_fields; query := no_uf_fields |})
      constructor [] = (Returned bad_request, constructor, []).
Proof.
  destruct (missing_field_rejected {| body := no_uf_fields; query := no_uf_fields |}
              (world_ok []) constructor []) as (Hpost & Hget & _).
  split.
  - apply Hpost. right; right. left. reflexivity.
  - apply Hget. right; right. left. reflexivity.
Defined.

Lemma get_post_agree_witness :
  post_consultar {| body := full_fields; query := ∅ |} =
  get_consultar {| body := ∅; query := full_fields |}.
Proof.
  apply (get_post_agree {| body := full_fields; query := ∅ |}
           {| body := ∅; query := full_fields |} trf1 processo bahia);
    reflexivity.
Defined.

Lemma consultarProcesso_guards_null_page_witness :
  run (world_ok []) (consultarProcesso trf1 processo bahia) launching_session [] =
    (Returned (failure falha_pagina), launching_session, [consulta_error_line falha_pagina]).
Proof.
  apply (consultarProcesso_guards_null_page (world_ok []) launching_session
           trf1 processo bahia); reflexivity.
Defined.

(** ** Scenarios *)

Example js_literals :
  js "RPV" = [82; 80; 86] /\
  js "migração" = [109; 105; 103; 114; 97; 231; 227; 111] /\
  toLowerCase (js "REQUISIÇÃO de Pequeno Valor") = js "requisição de pequeno valor" /\
  decimal 10025 = js "10025" /\ decimal (-7) = js "-7" /\ decimal 0 = js "0".
Proof. repeat split; reflexivity. Qed.

(** Fields that are no strings go into the address as the template
    literal converts them, and are tested as [!v] tests them. *)
Example fields_as_converted :
  url (VNum (js "1e+21")) (VObject (js "a,b")) VNull =
    js "https://processual.trf1.jus.br/consultaProcessual/processoExecucao/listar.php?secao=1e+21&proc=a,b&uf=null" /\
  truthy (VNum (js "0")) = false /\ truthy (VNum (js "NaN")) = false /\
  truthy (VNum (js "0.5")) = true /\ truthy (VObject []) = true /\
  truthy (VStr (js "0")) = true /\ truthy (VStr []) = false.
Proof. repeat split; vm_compute; reflexivity. Qed.

(** A page that mentions "precatório" and no keyword of higher priority. *)
Example precatorio_found :
  (run (world_ok html_precatorio) (consultarProcesso trf1 processo bahia) constructor []).1.1 =
  Returned {| sucesso := true;
              mensagem := js "RPV encontrada: precatório";
              temRPV := Some true;
              detalhes := Some (js "precatório") |}.
Proof. vm_compute. reflexivity. Qed.

(** A page without any keyword. *)
Example nothing_found :
  (run (world_ok html_vazio) (consultarProcesso trf1 processo bahia) constructor []).1.1 =
  Returned {| sucesso := true;
              mensagem := js "Página carregada, mas RPV não foi encontrada";
              temRPV := Some false;
              detalhes := Some [] |}.
Proof. vm_compute. reflexivity. Qed.

(** POST /api/consultar against a page with several keywords: the first of
    the list wins. *)
Example post_end_to_end :
  (run (world_ok html_requisicao) (post_consultar {| body := full_fields; query := ∅ |})
       constructor []).1.1 =
  Returned {| status := 200;
              payload := {| sucesso := true;
                            mensagem := js "RPV encontrada: Requisição de Pequeno Valor";
                            temRPV := Some true;
                            detalhes := Some (js "Requisição de Pequeno Valor") |} |}.
Proof. vm_compute. reflexivity. Qed.

(** A navigation that times out. *)
Example navigation_timeout :
  (run world_timeout (consultarProcesso trf1 processo bahia) constructor []).1.1 =
  Returned (failure timeout_error).
Proof. vm_compute. reflexivity. Qed.

(** A query that arrives while another caller's [initialize] awaits the
    launch finds the guard set and no page. *)
Example query_during_launch_fails (w : World) :
  exists cfg,
    exec w boot query_during_launch = Some cfg /\
    session cfg = launching_session /\
    pool cfg !! 1%nat =
      Some (OpConsultar trf1 processo bahia,
            TDone (Returned (ValResult (failure falha_pagina)))) /\
    filter is_page_call (trace cfg) = [].
Proof. eexists. repeat split. Qed.

(** Interleaved with an [initialize], a [close] can leave a page without
    browser: the session invariant is one of operations called in
    sequence. *)
Remark close_during_initialize_orphans_page :
  exists cfg,
    exec (world_ok []) boot close_during_initialize = Some cfg /\
    browser (session cfg) = None /\
    page (session cfg) = Some (PageHandle 1).
Proof. eexists. repeat split. Qed.

(** ** The further properties at concrete inputs *)

Lemma close_rejected_keeps_handles_witness :
  run world_stuck close open_session [] =
  (Thrown shutdown_error, open_session,
   [EvCall (CloseBrowser (BrowserHandle 1));
    EvSettle (CloseBrowser (BrowserHandle 1)) (Rejected shutdown_error)]).
Proof.
  exact (proj1 (close_rejected_keeps_handles world_stuck open_session []
                  (BrowserHandle 1) shutdown_error eq_refl eq_refl)).
Defined.

Lemma initialize_success_protocol_witness :
  exists b p,
    (run (world_ok []) initialize constructor []).1.2 =
    {| browser := Some b; page := Some p; isInitializing := false |}.
Proof.
  destruct (initialize_success_protocol (world_ok []) constructor) as (b & p & Hs & _).
  - reflexivity.
  - vm_compute. reflexivity.
  - by exists b, p.
Defined.

Lemma initialize_never_shuts_down_witness :
  (run world_no_page initialize constructor []).1.1 = Thrown page_error /\
  browser (run world_no_page initialize constructor []).1.2 = None.
Proof.
  split; [vm_compute; reflexivity|].
  destruct (initialize_never_shuts_down world_no_page constructor eq_refl) as [_ Hleak].
  apply (Hleak (BrowserHandle 1) page_error); [in_list | vm_compute; reflexivity].
Defined.

Ltac no_ampersand :=
  let Hin := fresh in
  intros Hin; vm_compute in Hin;
  repeat match type of Hin with
         | _ \/ _ => destruct Hin as [Hin|Hin]; [discriminate Hin|]
         end; exact Hin.

Lemma url_determines_fields_witness :
  js "TRF1" = js "TRF1" /\ js "10025962720234013311" = js "10025962720234013311" /\
  js "BA" = js "BA".
Proof.
  apply (url_determines_fields (js "TRF1") (js "10025962720234013311") (js "BA")
           (js "TRF1") (js "10025962720234013311") (js "BA"));
    [no_ampersand | no_ampersand | no_ampersand | no_ampersand | reflexivity].
Defined.

Lemma consultar_routes_answer_witness :
  Answer full_fields (run (world_ok html_precatorio) (handler post_full) constructor []).1.1.
Proof.
  exact (consultar_routes_answer (world_ok html_precatorio) post_full full_fields
           constructor [] eq_refl).
Defined.

Lemma consultar_route_when_ready_witness :
  exists r s' tr',
    run world_timeout (handler get_full) open_session [] =
    (Returned (SentResponse {| status := 200; payload := r |}), s', tr').
Proof.
  destruct (consultar_route_when_ready world_timeout get_full full_fields open_session [])
    as (r & s' & tr' & _ & Hrun).
  - reflexivity.
  - vm_compute. reflexivity.
  - reflexivity.
  - by exists r, s', tr'.
Defined.

Lemma consultar_route_server_error_witness :
  (run world_no_browser (handler post_full) constructor []).1.1 =
  Returned (SentResponse (server_error launch_error)).
Proof.
  apply (proj2 (consultar_route_server_error world_no_browser post_full full_fields
                  constructor [] eq_refl)); vm_compute; reflexivity.
Defined.

Lemma serve_settled_witness :
  Settled_down (serve (world_ok html_requisicao) session_of_use constructor []).1.2
               (serve (world_ok html_requisicao) session_of_use constructor []).2.
Proof.
  assert (Settled_down constructor []) as Hboot by (by repeat split).
  exact (proj1 (proj2 (proj2 (serve_settled (world_ok html_requisicao) session_of_use
                                constructor [] Hboot)))).
Defined.

Lemma only_initialize_and_close_reject_witness :
  exists cfg,
    exec world_no_browser boot failed_launch = Some cfg /\
    pool cfg !! 0%nat = Some (OpInitialize, TDone (Thrown launch_error)) /\
    (OpInitialize = OpInitialize \/ OpInitialize = OpClose).
Proof.
  destruct (exec world_no_browser boot failed_launch) as [cfg|] eqn:Hexec;
    [|vm_compute in Hexec; discriminate].
  assert (pool cfg !! 0%nat = Some (OpInitialize, TDone (Thrown launch_error))) as Hpool.
  { vm_compute in Hexec. injection Hexec as <-. reflexivity. }
  exists cfg. split; [reflexivity|]. split; [exact Hpool|].
  exact (only_initialize_and_close_reject world_no_browser failed_launch cfg 0 OpInitialize
           launch_error Hexec Hpool).
Defined.

Lemma consultar_route_during_initialization_witness :
  run (world_ok html_precatorio) (handler post_full) launching_session [] =
  (Returned (SentResponse {| status := 200; payload := failure falha_pagina |}),
   launching_session, [consulta_error_line falha_pagina]).
Proof.
  apply (consultar_route_during_initialization (world_ok html_precatorio) post_full
           full_fields launching_session []); reflexivity.
Defined.

(** The fields are pasted into the address as they are: with a "&" in
    a field, two different queries navigate to the same address. *)
Example url_collision :
  url (VStr (js "TRF1&proc=1")) (VStr (js "2")) (VStr (js "BA")) =
  url (VStr (js "TRF1")) (VStr (js "1&proc=2")) (VStr (js "BA")).
Proof. vm_compute. reflexivity. Qed.

(** A session of use, request by request. *)
Example session_of_use_statuses :
  (serve (world_ok html_requisicao) session_of_use constructor []).1.1 =
  [Returned (SentStatus {| Status.pronto := false;
                           Status.mensagem := js "Serviço não inicializado" |});
   Returned (SentResponse inicializado);
   Returned (SentResponse {| status := 200; payload := found_result html_requisicao |});
   Returned (SentResponse {| status := 200; payload := found_result html_requisicao |});
   Returned (SentStatus {| Status.pronto := true;
                           Status.mensagem := js "Serviço pronto para consultas" |});
   Returned (SentResponse fechado);
   Returned (SentStatus {| Status.pronto := false;
                           Status.mensagem := js "Serviço não inicializado" |})].
Proof. vm_compute. reflexivity. Qed.

(** The browser refuses to shut down: POST /api/fechar sends 500 and
    the service still reports ready. *)
Example stuck_browser_stays_ready :
  (serve world_stuck [PostInicializar; PostFechar; GetStatus] constructor []).1.1 =
  [Returned (SentResponse inicializado);
   Returned (SentResponse (erro_ao_fechar shutdown_error));
   Returned (SentStatus {| Status.pronto := true;
                           Status.mensagem := js "Serviço pronto para consultas" |})].
Proof. vm_compute. reflexivity. Qed.

Lemma vercel_initialize_outcome_witness :
  (Vercel.run Vercel.world_no_interception (Vercel.initialize Vercel.on_vercel)
     constructor []).1.2 = constructor.
Proof.
  destruct (proj1 (vercel_initialize_outcome Vercel.on_vercel Vercel.world_no_interception
                     constructor eq_refl)) as [[Hret _]|(e & _ & Hs & _)].
  - vm_compute in Hret. discriminate Hret.
  - exact Hs.
Defined.

Lemma vercel_agrees_on_open_session_witness :
  (Vercel.run (Vercel.world_no_selector html_precatorio)
     (Vercel.consultarProcesso Vercel.on_vercel trf1 processo bahia) open_session []).1.1 =
  (run (world_ok html_precatorio) (consultarProcesso trf1 processo bahia) open_session []).1.1.
Proof.
  exact (proj1 (vercel_agrees_on_open_session Vercel.on_vercel
                  (world_ok html_precatorio) (Vercel.world_no_selector html_precatorio)
                  trf1 processo bahia (BrowserHandle 1) (PageHandle 1) false
                  (Fulfilled tt) (Fulfilled html_precatorio)
                  (fun _ => eq_refl) (fun _ => eq_refl) (fun _ => eq_refl) (fun _ => eq_refl))).
Defined.

(** The path of the browser's executable, by environment. *)
Example executable_paths :
  Vercel.executablePath_of Vercel.off_vercel = None /\
  Vercel.executablePath_of Vercel.on_vercel = Some (js "/usr/bin/chromium") /\
  Vercel.executablePath_of {| Vercel.VERCEL := Some (js "1");
                              Vercel.CHROMIUM_PATH := Some [] |}
    = Some (js "/usr/bin/chromium") /\
  Vercel.executablePath_of {| Vercel.VERCEL := Some (js "1");
                              Vercel.CHROMIUM_PATH := Some (js "/opt/chrome") |}
    = Some (js "/opt/chrome") /\
  Vercel.executablePath_of {| Vercel.VERCEL := Some (js "true");
                              Vercel.CHROMIUM_PATH := Some (js "/opt/chrome") |}
    = None.
Proof. repeat split; vm_compute; reflexivity. Qed.

(** The variant for Vercel, from a new service to its shutdown, while
    the selector never shows up. *)
Example vercel_end_to_end :
  let out := Vercel.run (Vercel.world_no_selector html_requisicao)
               (r ← Vercel.consultarProcesso Vercel.on_vercel trf1 processo bahia;
                Vercel.close;;
                Vercel.Ret r)
               constructor [] in
  out.1.1 = Returned (found_result html_requisicao) /\
  Vercel.isReady out.1.2 = false /\
  length (Vercel.calls out.2) = 9%nat.
Proof. vm_compute. repeat split. Qed.
